(** * PrivatBank exchange-rate fetcher and WebSocket command server

    A shallow embedding of [currency_exch_privatbank.py]: the class
    [ExchangeRateFetcher] ([fetch_exchange_rate], [fetch_last_days],
    [extract_rates]) and the class [WebSocketChat] ([exchange_command],
    [handler]).

    Python values are modelled as follows.
    - [str] is a sequence of code points below 256, written as a Rocq
      [string].
    - What [response.json()] returns is a [json] value; object members are
      read with [x["key"]], which raises [KeyError] or [TypeError].
    - A [dict] built by the program is an insertion-ordered association
      list: assigning to a key that is present replaces the value in place,
      assigning to a new key appends.
    - Exceptions are values of [exn]; a computation returns [Ok v] or
      [Raise e] next to the state it leaves behind.
    - The outside world (wall clock, remote API, log file) is an [env] of
      oracles indexed by a step counter; every call on an external object
      is recorded, in order, in the [trace] of the state. *)

From Stdlib Require Import ZArith List String Ascii Bool Lia ListSet PeanoNat.
From Stdlib Require Import DecimalString Permutation.
Import ListNotations.
Local Open Scope Z_scope.
Local Open Scope list_scope.

Set Implicit Arguments.
Set Warnings "-register-all".

(** ** Dates *)

(** A naive [datetime]: the proleptic Gregorian ordinal of its day and the
    microseconds elapsed since midnight. *)
Record datetime := { ordinal : Z; micros : Z }.

(** [dt - timedelta(days=i)] moves the day and keeps the time of day.  The
    range check of [datetime] (years 1 to 9999) is not modelled. *)
Definition minus_days (dt : datetime) (i : Z) : datetime :=
  {| ordinal := ordinal dt - i; micros := micros dt |}.

(** ** Exceptions *)

Inductive exn_class :=
| KeyError | TypeError | ValueError | JSONDecodeError | TimeoutError | OSError
| ClientConnectionError | ClientResponseError | ContentTypeError
| ConnectionClosedOK | ConnectionClosedError.

(** An exception: its class and the text [str(e)] gives. *)
Record exn := { exn_class_of : exn_class; exn_msg : string }.

(** [isinstance(e, aiohttp.ClientError)]. *)
Definition is_ClientError (e : exn) : bool :=
  match exn_class_of e with
  | ClientConnectionError | ClientResponseError | ContentTypeError => true
  | _ => false
  end.

(** [isinstance(e, websockets.exceptions.ConnectionClosed)]. *)
Definition is_ConnectionClosed (e : exn) : bool :=
  match exn_class_of e with
  | ConnectionClosedOK | ConnectionClosedError => true
  | _ => false
  end.

(** [isinstance(e, ValueError)]; [json.JSONDecodeError] derives from it. *)
Definition is_ValueError (e : exn) : bool :=
  match exn_class_of e with
  | ValueError | JSONDecodeError => true
  | _ => false
  end.

Inductive result (A : Type) :=
| Ok (a : A)
| Raise (e : exn).
Arguments Ok {A} a.
Arguments Raise {A} e.

(** ** The Python runtime

    What the interpreter supplies and the program treats as opaque: the
    numbers a JSON document decodes to, and the renderings [repr], [str] and
    [strftime]. *)
Class PyNumber := {
  number : Type;
  (** [a == b] on numbers, which is also their equality as dict keys *)
  num_eqb : number -> number -> bool;
  (** [True] and [False] as the numbers 1 and 0 *)
  num_of_bool : bool -> number;
  (** [bool(n)] *)
  num_truth : number -> bool;
  (** [str(n)] *)
  num_str : number -> string
}.

Class PyText := {
  (** [repr(s)] of a [str] *)
  str_repr : string -> string;
  (** [str(dt)] of a [datetime] *)
  datetime_str : datetime -> string;
  (** the day with the given ordinal, formatted with ["%d.%m.%Y"] *)
  format_dmY : Z -> string;
  (** [sys.get_int_max_str_digits()]; 0 switches the limit off *)
  int_max_str_digits : nat
}.

(** ** Strings *)

(** [sep.join(l)]. *)
Fixpoint join (sep : string) (l : list string) : string :=
  match l with
  | [] => EmptyString
  | [s] => s
  | s :: rest => (s ++ sep ++ join sep rest)%string
  end.

(** [c.isspace()] for a code point below 256. *)
Definition is_space (c : ascii) : bool :=
  let n := nat_of_ascii c in
  (((9 <=? n) && (n <=? 13)) || ((28 <=? n) && (n <=? 32))
   || (n =? 133) || (n =? 160))%nat.

Definition flush (word : string) (acc : list string) : list string :=
  match word with
  | EmptyString => acc
  | _ => word :: acc
  end.

(** [split_from s] splits [s] at runs of white space; the first component is
    the word that starts [s] (empty when [s] starts with white space), the
    second the words after it. *)
Fixpoint split_from (s : string) : string * list string :=
  match s with
  | EmptyString => (EmptyString, [])
  | String c rest =>
      let (word, others) := split_from rest in
      if is_space c then (EmptyString, flush word others)
      else (String c word, others)
  end.

(** [s.split()]: the maximal runs of characters that are not white space. *)
Definition split (s : string) : list string :=
  let (word, others) := split_from s in flush word others.

Definition is_digit (c : ascii) : bool :=
  let n := nat_of_ascii c in ((48 <=? n) && (n <=? 57))%nat.

Definition digit_val (c : ascii) : Z := Z.of_nat (nat_of_ascii c) - 48.

(** The digits of a decimal literal after its first digit: digits, each
    optionally preceded by one underscore.  Returns the value and the number
    of digits read. *)
Fixpoint more_digits (acc : Z) (count : nat) (s : string) : option (Z * nat) :=
  match s with
  | EmptyString => Some (acc, count)
  | String c rest =>
      if is_digit c then more_digits (10 * acc + digit_val c) (S count) rest
      else if Ascii.eqb c "_" then
        match rest with
        | String d rest' =>
            if is_digit d
            then more_digits (10 * acc + digit_val d) (S count) rest'
            else None
        | EmptyString => None
        end
      else None
  end.

Definition unsigned_literal (s : string) : option (Z * nat) :=
  match s with
  | String c rest =>
      if is_digit c then more_digits (digit_val c) 1%nat rest else None
  | EmptyString => None
  end.

(** The base-10 integer literal [int] accepts, without surrounding white
    space: an optional sign, then digits with single underscores between
    them. *)
Definition int_literal (s : string) : option (Z * nat) :=
  match s with
  | String c rest =>
      if Ascii.eqb c "-" then
        match unsigned_literal rest with
        | Some (v, n) => Some (- v, n)
        | None => None
        end
      else if Ascii.eqb c "+" then unsigned_literal rest
      else unsigned_literal s
  | EmptyString => None
  end.

(** [s.strip()] is not needed before [int] here: the words [split] returns
    hold no white space. *)
Definition invalid_literal (s : string) : exn :=
  {| exn_class_of := ValueError;
     exn_msg := "invalid literal for int() with base 10" |}.

Definition too_many_digits : exn :=
  {| exn_class_of := ValueError;
     exn_msg := "Exceeds the limit for integer string conversion" |}.

Section Runtime.
Context {NUM : PyNumber} {TXT : PyText}.

(** [int(s)] for a [str] [s]. *)
Definition py_int (s : string) : result Z :=
  match int_literal s with
  | None => Raise (invalid_literal s)
  | Some (v, n) =>
      if ((0 <? int_max_str_digits) && (int_max_str_digits <? n))%nat
      then Raise too_many_digits
      else Ok v
  end.

(** ** JSON values as Python objects *)

Inductive json :=
| JNull
| JBool (b : bool)
| JNum (n : number)
| JStr (s : string)
| JArr (items : list json)
| JObj (members : list (string * json)).

(** [bool(x)]. *)
Definition truthy (x : json) : bool :=
  match x with
  | JNull => false
  | JBool b => b
  | JNum n => num_truth n
  | JStr s => negb (String.eqb s EmptyString)
  | JArr items => match items with [] => false | _ => true end
  | JObj members => match members with [] => false | _ => true end
  end.

Fixpoint assoc {V : Type} (key : string) (d : list (string * V)) : option V :=
  match d with
  | [] => None
  | (k, v) :: rest => if String.eqb k key then Some v else assoc key rest
  end.

Definition key_error (key : string) : exn :=
  {| exn_class_of := KeyError; exn_msg := key |}.

Definition type_error (msg : string) : exn :=
  {| exn_class_of := TypeError; exn_msg := msg |}.

(** [x[key]] for a [str] key. *)
Definition getitem (x : json) (key : string) : result json :=
  match x with
  | JObj members =>
      match assoc key members with
      | Some v => Ok v
      | None => Raise (key_error key)
      end
  | JArr _ => Raise (type_error "list indices must be integers or slices, not str")
  | JStr _ => Raise (type_error "string indices must be integers, not 'str'")
  | _ => Raise (type_error "object is not subscriptable")
  end.

Fixpoint chars (s : string) : list json :=
  match s with
  | EmptyString => []
  | String c rest => JStr (String c EmptyString) :: chars rest
  end.

(** [iter(x)], run to the end: a list gives its items, a dict its keys, a
    string its characters. *)
Definition py_iter (x : json) : result (list json) :=
  match x with
  | JArr items => Ok items
  | JObj members => Ok (map (fun kv => JStr (fst kv)) members)
  | JStr s => Ok (chars s)
  | _ => Raise (type_error "object is not iterable")
  end.

(** [x in currencies] for a list of [str]: only a string equals a string. *)
Definition in_currencies (x : json) (currencies : list string) : bool :=
  match x with
  | JStr s => existsb (String.eqb s) currencies
  | _ => false
  end.

(** [hash(x)] succeeds. *)
Definition hashable (x : json) : bool :=
  match x with
  | JArr _ | JObj _ => false
  | _ => true
  end.

(** [a == b] for hashable values, the equality dict keys are compared with:
    [True == 1] and [False == 0]. *)
Definition key_eqb (a b : json) : bool :=
  match a, b with
  | JNull, JNull => true
  | JBool x, JBool y => Bool.eqb x y
  | JBool x, JNum n => num_eqb (num_of_bool x) n
  | JNum n, JBool y => num_eqb n (num_of_bool y)
  | JNum n, JNum m => num_eqb n m
  | JStr s, JStr t => String.eqb s t
  | _, _ => false
  end.

(** [d[k] = v] on an insertion-ordered dict: a present key keeps its place
    and its key object, a new key goes last. *)
Fixpoint dict_set {K V : Type} (eqb : K -> K -> bool) (k : K) (v : V)
    (d : list (K * V)) : list (K * V) :=
  match d with
  | [] => [(k, v)]
  | (k', v') :: rest =>
      if eqb k' k then (k', v) :: rest else (k', v') :: dict_set eqb k v rest
  end.

(** [repr(x)] and [str(x)]; they differ on strings only. *)
Fixpoint py_repr (x : json) : string :=
  match x with
  | JNull => "None"
  | JBool true => "True"
  | JBool false => "False"
  | JNum n => num_str n
  | JStr s => str_repr s
  | JArr items => ("[" ++ join ", " (map py_repr items) ++ "]")%string
  | JObj members =>
      ("{" ++ join ", "
         (map (fun kv => (str_repr (fst kv) ++ ": " ++ py_repr (snd kv))%string)
              members) ++ "}")%string
  end.

Definition py_str (x : json) : string :=
  match x with
  | JStr s => s
  | _ => py_repr x
  end.

(** [repr] of a list of [str], as in [f"{params}"]. *)
Definition repr_str_list (l : list string) : string :=
  ("[" ++ join ", " (map str_repr l) ++ "]")%string.

End Runtime.

(** ** The outside world *)

(** What comes back for one GET: the transport raises, or a response arrives
    with its status, whether its content type is [application/json], and its
    body decoded as JSON: [None] for a body that is not a JSON document,
    [Some JNull] for an empty body, which [response.json()] reads as
    [None]. *)
Inductive answer {NUM : PyNumber} :=
| Failed (e : exn)
| Response (status : Z) (json_ctype : bool) (body : option json).

(** A reply and the time it takes to arrive. *)
Record reply {NUM : PyNumber} := { latency : nat; answer_of : answer }.

(** The oracles, indexed by the step at which they are consulted. *)
Record env {NUM : PyNumber} := {
  (** [datetime.now()] *)
  clock : nat -> datetime;
  (** the remote API: the reply to a GET of a URL *)
  remote : nat -> string -> reply;
  (** the fault, if any, of [websocket.send] on a connection *)
  send_fault : nat -> nat -> option exn;
  (** the fault, if any, of opening a file for append *)
  open_fault : nat -> string -> option exn
}.

Inductive event :=
| SessionOpen
| SessionClose
| HttpGet (url : string)
| LogError (msg : string)
| WsSend (ws : nat) (text : string)
| FileAppend (path : string) (text : string)
| Print (text : string).

(** The state: the [clients] set of the chat, the number of steps taken, the
    calls made on external objects so far (oldest first). *)
Record world := {
  clients : set nat;
  ticks : nat;
  trace : list event
}.

Definition M (A : Type) : Type := world -> result A * world.

Definition ret {A : Type} (a : A) : M A := fun w => (Ok a, w).

Definition raise {A : Type} (e : exn) : M A := fun w => (Raise e, w).

Definition bind {A B : Type} (m : M A) (k : A -> M B) : M B :=
  fun w =>
    match m w with
    | (Ok a, w') => k a w'
    | (Raise e, w') => (Raise e, w')
    end.

Definition lift {A : Type} (r : result A) : M A := fun w => (r, w).

Definition emit (ev : event) : M unit :=
  fun w => (Ok tt, {| clients := clients w; ticks := ticks w;
                      trace := trace w ++ [ev] |}).

(** Consult an oracle: read the step counter and advance it. *)
Definition step : M nat :=
  fun w => (Ok (ticks w), {| clients := clients w; ticks := S (ticks w);
                             trace := trace w |}).

(** [try: m finally: f]. *)
Definition finally {A : Type} (m : M A) (f : M unit) : M A :=
  fun w =>
    let (r, w') := m w in
    match f w' with
    | (Ok _, w'') => (r, w'')
    | (Raise e, w'') => (Raise e, w'')
    end.

(** [try: m except C as e: h e] for the class test [C]. *)
Definition try_except {A : Type} (m : M A) (C : exn -> bool)
    (h : exn -> M A) : M A :=
  fun w =>
    match m w with
    | (Raise e, w') => if C e then h e w' else (Raise e, w')
    | ok => ok
    end.

Declare Scope py_scope.
Delimit Scope py_scope with py.
Notation "x <- m ;; k" := (bind m (fun x => k))
  (at level 61, m at next level, right associativity) : py_scope.
Notation "m ;; k" := (bind m (fun _ => k))
  (at level 61, right associativity) : py_scope.
Local Open Scope py_scope.

(** ** ExchangeRateFetcher *)

Definition API_URL_prefix : string :=
  "https://api.privatbank.ua/p24api/exchange_rates?json&date=".

Record ExchangeRateFetcher := {
  days : Z;
  currencies : list string
}.

(** The object [aiohttp.ClientSession()] gives. *)
Inductive session := ClientSession.

(** A call [fetch_exchange_rate(session, date)] that has not started. *)
Record coroutine := { co_session : session; co_date : datetime }.

Section Program.
Context {NUM : PyNumber} {TXT : PyText}.
Variable E : env.

(** [API_URL.format(date.strftime("%d.%m.%Y"))]. *)
Definition API_URL (date : datetime) : string :=
  (API_URL_prefix ++ format_dmY (ordinal date))%string.

Definition now : M datetime :=
  t <- step ;; ret (clock E t).

(** A fetch suspended in [session.get(url)], with the reply it will see. *)
Record pending := { url_of : string; reply_of : reply }.

(** Lines 21 and 23: the URL is built and the GET goes out. *)
Definition send_request (co : coroutine) : M pending :=
  let url := API_URL (co_date co) in
  emit (HttpGet url) ;;
  t <- step ;;
  ret {| url_of := url; reply_of := remote E t url |}.

Definition response_error (status : Z) : exn :=
  {| exn_class_of := ClientResponseError;
     exn_msg := (if status <? 500 then "client error" else "server error") |}.

Definition content_type_error : exn :=
  {| exn_class_of := ContentTypeError;
     exn_msg := "Attempt to decode JSON with unexpected mimetype" |}.

Definition json_decode_error : exn :=
  {| exn_class_of := JSONDecodeError; exn_msg := "Expecting value" |}.

(** Lines 23 to 25, once the reply is there.  [raise_for_status] raises
    [ClientResponseError] for a status of 400 or more; [response.json()]
    raises [ContentTypeError] for a content type other than JSON and
    [JSONDecodeError] for a body that does not decode. *)
Definition read_response (a : answer) : result json :=
  match a with
  | Failed e => Raise e
  | Response status json_ctype body =>
      if 400 <=? status then Raise (response_error status)
      else if negb json_ctype then Raise content_type_error
      else match body with
           | Some j => Ok j
           | None => Raise json_decode_error
           end
  end.

(** Lines 22 to 28 from the reply on: [except aiohttp.ClientError] logs and
    returns [None]; any other exception leaves the coroutine. *)
Definition resume (p : pending) : M json :=
  try_except (lift (read_response (answer_of (reply_of p))))
    is_ClientError
    (fun e => emit (LogError ("Request failed: " ++ exn_msg e)%string) ;;
              ret JNull).

Definition fetch_exchange_rate (s : session) (date : datetime) : M json :=
  p <- send_request {| co_session := s; co_date := date |} ;;
  resume p.

(** *** asyncio.gather

    [gather] starts its coroutines in argument order; each runs to its first
    suspension, the GET.  The replies then arrive in the order of their
    latencies (argument order among equal ones) and each coroutine runs to
    its end when its reply is there.  The first exception to leave a
    coroutine leaves [gather], and what the coroutines still waiting do
    after that is not recorded; otherwise [gather] returns the results in
    argument order. *)

Fixpoint start_all (i : nat) (tasks : list coroutine)
    : M (list (nat * pending)) :=
  match tasks with
  | [] => ret []
  | co :: rest =>
      p <- send_request co ;;
      ps <- start_all (S i) rest ;;
      ret ((i, p) :: ps)
  end.

Fixpoint arrive (p : nat * pending) (l : list (nat * pending))
    : list (nat * pending) :=
  match l with
  | [] => [p]
  | q :: rest =>
      if (latency (reply_of (snd q)) <? latency (reply_of (snd p)))%nat
      then q :: arrive p rest
      else p :: q :: rest
  end.

Definition by_completion (ps : list (nat * pending)) : list (nat * pending) :=
  fold_right arrive [] ps.

Fixpoint settle (order : list (nat * pending)) : M (list (nat * json)) :=
  match order with
  | [] => ret []
  | (i, p) :: rest =>
      v <- resume p ;;
      done <- settle rest ;;
      ret ((i, v) :: done)
  end.

Fixpoint result_of (i : nat) (done : list (nat * json)) : json :=
  match done with
  | [] => JNull
  | (k, v) :: rest => if Nat.eqb k i then v else result_of i rest
  end.

Definition gather (tasks : list coroutine) : M (list json) :=
  ps <- start_all 0 tasks ;;
  done <- settle (by_completion ps) ;;
  ret (map (fun i => result_of i done) (seq 0 (List.length tasks))).

(** Lines 34 to 37: [for i in range(days)], from index [i] on with [n]
    rounds to go. *)
Fixpoint make_tasks (s : session) (i : Z) (n : nat) : M (list coroutine) :=
  match n with
  | O => ret []
  | S n' =>
      t <- now ;;
      let date := minus_days t i in
      rest <- make_tasks s (i + 1) n' ;;
      ret ({| co_session := s; co_date := date |} :: rest)
  end.

Definition fetch_last_days (self : ExchangeRateFetcher) (days_arg : option Z)
    : M (list json) :=
  let days := match days_arg with None => days self | Some d => d end in
  emit SessionOpen ;;
  finally
    (tasks <- make_tasks ClientSession 0 (Z.to_nat days) ;;
     results <- gather tasks ;;
     ret results)
    (emit SessionClose).

(** *** extract_rates *)

(** The inner dict of one date, keyed by currency. *)
Definition rate_dict : Type := list (json * json).

(** The dict comprehension of lines 46 and 47, with the entries seen so far
    in [acc].  For each [rate] the condition is evaluated first, then the
    key, then the value. *)
Fixpoint comprehension (wanted : list string) (rates : list json)
    (acc : rate_dict) : result rate_dict :=
  match rates with
  | [] => Ok acc
  | rate :: rest =>
      match getitem rate "currency" with
      | Raise e => Raise e
      | Ok code =>
          if in_currencies code wanted then
            match getitem rate "saleRate" with
            | Raise e => Raise e
            | Ok value => comprehension wanted rest (dict_set key_eqb code value acc)
            end
          else comprehension wanted rest acc
      end
  end.

Definition unhashable : exn := type_error "unhashable type".

(** The body of the loop for one truthy [entry]. *)
Definition add_entry (wanted : list string) (entry : json)
    (rates : list (json * rate_dict)) : result (list (json * rate_dict)) :=
  match getitem entry "date" with
  | Raise e => Raise e
  | Ok date =>
      match getitem entry "exchangeRate" with
      | Raise e => Raise e
      | Ok rate_list =>
          match py_iter rate_list with
          | Raise e => Raise e
          | Ok items =>
              match comprehension wanted items [] with
              | Raise e => Raise e
              | Ok d =>
                  if hashable date then Ok (dict_set key_eqb date d rates)
                  else Raise unhashable
              end
          end
      end
  end.

Fixpoint extract_loop (wanted : list string) (data : list json)
    (rates : list (json * rate_dict)) : result (list (json * rate_dict)) :=
  match data with
  | [] => Ok rates
  | entry :: rest =>
      if truthy entry then
        match add_entry wanted entry rates with
        | Raise e => Raise e
        | Ok rates' => extract_loop wanted rest rates'
        end
      else extract_loop wanted rest rates
  end.

Definition extract_rates (self : ExchangeRateFetcher) (data : list json)
    : result (list (json * rate_dict)) :=
  extract_loop (currencies self) data [].

(** ** main *)

(** Lines 57 and 58: one [print] per currency of a date. *)
Fixpoint print_rate (rate : rate_dict) : M unit :=
  match rate with
  | [] => ret tt
  | (currency, value) :: rest =>
      emit (Print (py_str currency ++ ": " ++ py_str value)%string) ;;
      print_rate rest
  end.

(** Lines 55 to 58. *)
Fixpoint print_rates (rates : list (json * rate_dict)) : M unit :=
  match rates with
  | [] => ret tt
  | (date, rate) :: rest =>
      emit (Print ("Rates on " ++ py_str date ++ ":")%string) ;;
      print_rate rate ;;
      print_rates rest
  end.

Definition main (days : Z) (currencies : list string) : M unit :=
  let fetcher := {| days := days; currencies := currencies |} in
  data <- fetch_last_days fetcher None ;;
  rates <- lift (extract_rates fetcher data) ;;
  print_rates rates.

(** ** WebSocketChat *)

(** A connection: its identity, the text frames the peer will send, and how
    the stream of frames ends ([None] for a normal close, which ends the
    [async for]; an exception otherwise). *)
Record websocket := {
  ws_id : nat;
  inbox : list string;
  ending : option exn
}.

(** The set [self.clients] lives in the state. *)
Record WebSocketChat := { fetcher : ExchangeRateFetcher }.

Definition newline : string := String (ascii_of_nat 10) EmptyString.

Definition max_days_error : string := "Error: Maximum number of days is 10".

(** [await websocket.send(text)]. *)
Definition ws_send (ws : websocket) (text : string) : M unit :=
  emit (WsSend (ws_id ws) text) ;;
  t <- step ;;
  match send_fault E t (ws_id ws) with
  | None => ret tt
  | Some e => raise e
  end.

(** Lines 77 to 79 for one date. *)
Definition rate_lines (rate : rate_dict) : list string :=
  map (fun cv => (py_str (fst cv) ++ ": " ++ py_str (snd cv))%string) rate.

(** Lines 75 to 79. *)
Definition response_lines (rates : list (json * rate_dict)) : list string :=
  flat_map
    (fun dr => ("Rates on " ++ py_str (fst dr) ++ ":")%string
               :: rate_lines (snd dr))
    rates.

Definition audit_line (params : list string) (at_time : datetime) : string :=
  ("Command 'exchange' executed with params " ++ repr_str_list params
   ++ " at " ++ datetime_str at_time ++ newline)%string.

(** Lines 84 to 86. *)
Definition append_audit (params : list string) : M unit :=
  t <- step ;;
  match open_fault E t "exchange.log" with
  | Some e => raise e
  | None =>
      at_time <- now ;;
      emit (FileAppend "exchange.log" (audit_line params at_time))
  end.

(** [int(params[0]) if params else 1]. *)
Definition parse_days (params : list string) : result Z :=
  match params with
  | [] => Ok 1
  | p :: _ => py_int p
  end.

Definition exchange_command (self : WebSocketChat) (ws : websocket)
    (params : list string) : M unit :=
  days <- lift (parse_days params) ;;
  if 10 <? days then
    ws_send ws max_days_error
  else
    data <- fetch_last_days (fetcher self) (Some days) ;;
    rates <- lift (extract_rates (fetcher self) data) ;;
    ws_send ws (join newline (response_lines rates)) ;;
    append_audit params.

Definition unpack_error : exn :=
  {| exn_class_of := ValueError;
     exn_msg := "not enough values to unpack (expected at least 1, got 0)" |}.

(** Lines 92 to 94 for one message. *)
Definition dispatch (self : WebSocketChat) (ws : websocket) (message : string)
    : M unit :=
  match split message with
  | [] => raise unpack_error
  | command :: params =>
      if String.eqb command "exchange"
      then exchange_command self ws params
      else ret tt
  end.

(** [async for message in websocket] over the frames still to come. *)
Fixpoint receive (self : WebSocketChat) (ws : websocket)
    (messages : list string) : M unit :=
  match messages with
  | [] =>
      match ending ws with
      | None => ret tt
      | Some e => raise e
      end
  | message :: rest =>
      dispatch self ws message ;;
      receive self ws rest
  end.

(** [self.clients.add(websocket)]. *)
Definition clients_add (ws : websocket) : M unit :=
  fun w => (Ok tt, {| clients := set_add Nat.eq_dec (ws_id ws) (clients w);
                      ticks := ticks w; trace := trace w |}).

(** [self.clients.remove(websocket)], which raises [KeyError] for an element
    that is not in the set. *)
Definition clients_remove (ws : websocket) : M unit :=
  fun w =>
    if set_mem Nat.eq_dec (ws_id ws) (clients w)
    then (Ok tt, {| clients := set_remove Nat.eq_dec (ws_id ws) (clients w);
                    ticks := ticks w; trace := trace w |})
    else (Raise (key_error "websocket"), w).

Definition handler (self : WebSocketChat) (ws : websocket) (path : string)
    : M unit :=
  clients_add ws ;;
  finally
    (try_except (receive self ws (inbox ws)) is_ConnectionClosed
       (fun e => emit (Print ("Connection closed: " ++ exn_msg e)%string)))
    (clients_remove ws).

End Program.

(** ** The script

    The block under [if __name__ == "__main__"], from the parsed arguments
    on.  [websockets.serve] and [server.wait_closed] belong to the library
    and are taken as they come. *)
Section Script.
Context {NUM : PyNumber} {TXT : PyText}.
Variable E : env.
Variable server : Type.
Variable serve : (websocket -> string -> M unit) -> string -> Z -> M server.
Variable wait_closed : server -> M unit.

(** Lines 100 to 102. *)
Definition start (self : WebSocketChat) : M unit :=
  srv <- serve (handler E self) "localhost" 8765 ;;
  wait_closed srv.

(** [WebSocketChat(fetcher)]: the chat starts with an empty [clients]. *)
Definition new_chat (f : ExchangeRateFetcher) : M WebSocketChat :=
  fun w => (Ok {| fetcher := f |},
            {| clients := empty_set nat; ticks := ticks w;
               trace := trace w |}).

(** Lines 112 to 122. *)
Definition script (args_days : Z) (args_currencies : list string) : M unit :=
  if 10 <? args_days then
    emit (Print max_days_error)
  else
    let f := {| days := args_days; currencies := args_currencies |} in
    main E args_days args_currencies ;;
    chat <- new_chat f ;;
    start chat.

End Script.

(** ** A runtime to evaluate with

    Numbers are decimals with one fractional digit, held in tenths; [repr]
    of a string puts it between single quotes, which is what Python does for
    a string without quotes, backslashes or control characters; dates are
    rendered from their ordinal by the usual conversion to year, month and
    day. *)

Definition digits (n : Z) : string :=
  NilZero.string_of_uint (N.to_uint (Z.to_N n)).

Definition tenths_str (n : Z) : string :=
  ((if (n <? 0)%Z then "-" else "")
   ++ digits (Z.abs n / 10)%Z ++ "." ++ digits (Z.abs n mod 10)%Z)%string.

Definition two_digits (n : Z) : string :=
  (digits (n / 10 mod 10) ++ digits (n mod 10))%string.

Definition four_digits (n : Z) : string :=
  (two_digits (n / 100) ++ two_digits n)%string.

(** Year, month and day of the day with ordinal [o] (ordinal 1 is 1 January
    of year 1). *)
Definition civil (o : Z) : Z * Z * Z :=
  let z := o + 305 in
  let era := z / 146097 in
  let doe := z - era * 146097 in
  let yoe := (doe - doe / 1460 + doe / 36524 - doe / 146096) / 365 in
  let doy := doe - (365 * yoe + yoe / 4 - yoe / 100) in
  let mp := (5 * doy + 2) / 153 in
  let d := doy - (153 * mp + 2) / 5 + 1 in
  let m := if mp <? 10 then mp + 3 else mp - 9 in
  let y := yoe + era * 400 + (if m <=? 2 then 1 else 0) in
  (y, m, d).

Definition sample_dmY (o : Z) : string :=
  let '(y, m, d) := civil o in
  (two_digits d ++ "." ++ two_digits m ++ "." ++ four_digits y)%string.

Definition sample_datetime_str (dt : datetime) : string :=
  let '(y, m, d) := civil (ordinal dt) in
  let s := micros dt / 1000000 in
  (four_digits y ++ "-" ++ two_digits m ++ "-" ++ two_digits d ++ " "
   ++ two_digits (s / 3600) ++ ":" ++ two_digits (s / 60 mod 60) ++ ":"
   ++ two_digits (s mod 60))%string.

Definition sample_numbers : PyNumber := {|
  number := Z;
  num_eqb := Z.eqb;
  num_of_bool := fun b => if b then 10 else 0;
  num_truth := fun n => negb (n =? 0);
  num_str := tenths_str
|}.

Definition sample_text : PyText := {|
  str_repr := fun s => ("'" ++ s ++ "'")%string;
  datetime_str := sample_datetime_str;
  format_dmY := sample_dmY;
  int_max_str_digits := 4300
|}.

(** Sample data: the record of the scenario of 1 June 2024, environments
    that serve such records, and a connection. *)
Module Sample.
Local Open Scope string_scope.
#[local] Existing Instance sample_numbers.
#[local] Existing Instance sample_text.

Definition usd : json := JObj [("currency", JStr "USD"); ("saleRate", JNum 395)].
Definition eur : json := JObj [("currency", JStr "EUR"); ("saleRate", JNum 421)].
Definition gbp : json := JObj [("currency", JStr "GBP"); ("saleRate", JNum 500)].

Definition record_of (date : string) : json :=
  JObj [("date", JStr date); ("exchangeRate", JArr [usd; eur; gbp])].

Definition june1 : json := record_of "01.06.2024".

(** Noon of 1 June 2024. *)
Definition noon : datetime := {| ordinal := 739038; micros := 43200000000 |}.

(** The date a URL asks for. *)
Definition asked (url : string) : string :=
  substring (String.length API_URL_prefix) 10 url.

Definition world_of (remote : nat -> string -> answer) : env :=
  {| clock := fun _ => noon;
     remote := fun t url => {| latency := 1; answer_of := remote t url |};
     send_fault := fun _ _ => None;
     open_fault := fun _ _ => None |}.

(** Every GET is answered with the record of the date asked for. *)
Definition healthy : env :=
  world_of (fun _ url => Response 200 true (Some (record_of (asked url)))).

(** Every GET is answered with status 200, a JSON content type and a body
    that is not a JSON document. *)
Definition garbled : env := world_of (fun _ _ => Response 200 true None).

Definition refused : exn :=
  {| exn_class_of := ClientConnectionError;
     exn_msg := "Cannot connect to host" |}.

(** The GET for 31 May 2024 is refused, the others are answered. *)
Definition flaky : env :=
  world_of (fun _ url =>
              if String.eqb (asked url) "31.05.2024" then Failed refused
              else Response 200 true (Some (record_of (asked url)))).

Definition start : world := {| clients := []; ticks := 0; trace := [] |}.

Definition usd_eur : ExchangeRateFetcher :=
  {| days := 1; currencies := ["USD"; "EUR"] |}.

Definition chat : WebSocketChat := {| fetcher := usd_eur |}.

Definition peer (frames : list string) : websocket :=
  {| ws_id := 7; inbox := frames; ending := None |}.

End Sample.

(** More sample data: records that miss keys, a peer that is gone, a remote
    API that is down, and a server that does nothing. *)
Module Cases.
Local Open Scope string_scope.
#[local] Existing Instance sample_numbers.
#[local] Existing Instance sample_text.

(** A currency the bank does not sell: no [saleRate]. *)
Definition aud : list (string * json) :=
  [("currency", JStr "AUD"); ("purchaseRateNB", JNum 258)].

Definition with_aud : list (string * json) :=
  [("date", JStr "01.06.2024");
   ("exchangeRate", JArr [Sample.usd; JObj aud; Sample.eur])].

Definition usd_aud : ExchangeRateFetcher :=
  {| days := 1; currencies := ["USD"; "AUD"] |}.

Definition quotes : list (string * json) :=
  [("USD", JNum 395); ("EUR", JNum 421); ("GBP", JNum 500)].

Definition june1_members : list (string * json) :=
  [("date", JStr "01.06.2024");
   ("exchangeRate", JArr [Sample.usd; Sample.eur; Sample.gbp])].

Definition closed : exn :=
  {| exn_class_of := ConnectionClosedError; exn_msg := "no close frame" |}.

(** The remote API answers, the peer is gone. *)
Definition lossy : env :=
  {| clock := fun _ => Sample.noon;
     remote := fun _ url =>
       {| latency := 1;
          answer_of :=
            Response 200 true (Some (Sample.record_of (Sample.asked url))) |};
     send_fault := fun _ _ => Some closed;
     open_fault := fun _ _ => None |}.

(** Every GET is refused. *)
Definition down : env := Sample.world_of (fun _ _ => Failed Sample.refused).

Definition garbled_reply : reply :=
  {| latency := 1; answer_of := Response 200 true None |}.

Definition no_serve (h : websocket -> string -> M unit) (host : string)
    (port : Z) : M unit := ret tt.

Definition no_wait (srv : unit) : M unit := ret tt.

End Cases.

(** * Vocabulary of the statements *)

Section Vocabulary.
Context {NUM : PyNumber} {TXT : PyText}.
Variable E : env.

(** What the coroutine of a fetch returns or raises once its reply is
    there, and the log line it writes on the way. *)
Definition settled (r : reply) : result json :=
  match read_response (answer_of r) with
  | Ok j => Ok j
  | Raise e => if is_ClientError e then Ok JNull else Raise e
  end.

Definition diagnostic (r : reply) : list event :=
  match read_response (answer_of r) with
  | Ok _ => []
  | Raise e =>
      if is_ClientError e
      then [LogError ("Request failed: " ++ exn_msg e)%string]
      else []
  end.

(** The fetch settles: it returns a record or [None] and raises nothing. *)
Definition settles (r : reply) : Prop := exists j, settled r = Ok j.

Definition value_of (r : reply) : json :=
  match settled r with
  | Ok j => j
  | Raise _ => JNull
  end.

(** The fetches started by [tasks] when the step counter is at [t]. *)
Fixpoint pendings_from (t : nat) (tasks : list coroutine) : list pending :=
  match tasks with
  | [] => []
  | co :: rest =>
      {| url_of := API_URL (co_date co);
         reply_of := remote E t (API_URL (co_date co)) |}
      :: pendings_from (S t) rest
  end.

Fixpoint number_from {A : Type} (i : nat) (l : list A) : list (nat * A) :=
  match l with
  | [] => []
  | a :: rest => (i, a) :: number_from (S i) rest
  end.

(** The batch [fetch_last_days] issues for [n] days from the state [w]: the
    date of round [i] is the clock reading of that round less [i] days, and
    the GETs go out after the [n] clock readings. *)
Definition date_at (w : world) (i : nat) : datetime :=
  minus_days (clock E (ticks w + i)) (Z.of_nat i).

Definition reply_at (w : world) (n i : nat) : reply :=
  remote E (ticks w + n + i) (API_URL (date_at w i)).

Definition batch_tasks (w : world) (n : nat) : list coroutine :=
  map (fun i => {| co_session := ClientSession; co_date := date_at w i |})
      (seq 0 n).

Definition batch_pendings (w : world) (n : nat) : list pending :=
  map (fun i => {| url_of := API_URL (date_at w i);
                   reply_of := reply_at w n i |}) (seq 0 n).

Definition batch (w : world) (n : nat) : list reply :=
  map (reply_at w n) (seq 0 n).

Definition batch_urls (w : world) (n : nat) : list string :=
  map (fun i => API_URL (date_at w i)) (seq 0 n).

(** The log lines of a batch, in the order the replies arrive. *)
Definition batch_log (w : world) (n : nat) : list event :=
  flat_map (fun ip => diagnostic (reply_of (snd ip)))
    (by_completion (number_from 0 (batch_pendings w n))).

(** ** Records, as the data model describes them: an object with a string
    [date] and a list [exchangeRate] of objects that each hold a string
    [currency] and a [saleRate]. *)
Definition is_rate (rate : json) : bool :=
  match rate with
  | JObj members =>
      match assoc "currency" members, assoc "saleRate" members with
      | Some (JStr _), Some _ => true
      | _, _ => false
      end
  | _ => false
  end.

Definition is_record (entry : json) : bool :=
  match entry with
  | JObj members =>
      match assoc "date" members, assoc "exchangeRate" members with
      | Some (JStr _), Some (JArr rates) => forallb is_rate rates
      | _, _ => false
      end
  | _ => false
  end.

(** An entry of the result sequence: a record, or [None] for a failed
    fetch. *)
Definition is_entry (entry : json) : bool :=
  match entry with
  | JNull => true
  | _ => is_record entry
  end.

(** [advance n evs w]: [n] more steps taken and the events [evs] recorded. *)
Definition advance (n : nat) (evs : list event) (w : world) : world :=
  {| clients := clients w; ticks := (ticks w + n)%nat;
     trace := trace w ++ evs |}.

(** [emits P m]: whatever its result, [m] leaves [clients] alone and records
    only events that satisfy [P]. *)
Definition emits (P : event -> Prop) {A : Type} (m : M A) : Prop :=
  forall w, exists n evs, snd (m w) = advance n evs w /\ Forall P evs.

Definition is_log (ev : event) : Prop :=
  match ev with LogError _ => True | _ => False end.

(** The events of [fetch_last_days]. *)
Definition is_fetch_event (ev : event) : Prop :=
  match ev with
  | SessionOpen | SessionClose | HttpGet _ | LogError _ => True
  | _ => False
  end.

Definition is_str (x : json) : Prop := exists s, x = JStr s.

Definition wanted_code (wanted : list string) (code : json) : Prop :=
  exists s, code = JStr s /\ In s wanted.

(** The invariant of the loop of [extract_rates]: every dict of currencies
    holds wanted codes only. *)
Definition codes_wanted (wanted : list string)
    (rates : list (json * rate_dict)) : Prop :=
  Forall (fun dr => Forall (fun kv => wanted_code wanted (fst kv)) (snd dr))
    rates.

(** The day count [fetch_last_days] works with. *)
Definition requested (self : ExchangeRateFetcher) (days_arg : option Z) : Z :=
  match days_arg with
  | None => days self
  | Some d => d
  end.

(** A fetch that fails the way [fetch_exchange_rate] absorbs, and one that
    brings a record. *)
Definition fails (r : reply) : Prop :=
  exists e, read_response (answer_of r) = Raise e /\ is_ClientError e = true.

Definition succeeds (r : reply) (j : json) : Prop :=
  read_response (answer_of r) = Ok j /\ is_record j = true.

(** A reply the specification counts as a failed fetch: the transport raised,
    the status is not 2xx, or the body is not a JSON document. *)
Definition fetch_failed (a : answer) : Prop :=
  match a with
  | Failed _ => True
  | Response status _ body => status < 200 \/ 300 <= status \/ body = None
  end.

(** [present entry]: the entry is not [None]. *)
Definition present (entry : json) : bool :=
  match entry with
  | JNull => false
  | _ => true
  end.

(** The state with a connection added to, or removed from, [clients]. *)
Definition register (ws : websocket) (w : world) : world :=
  {| clients := set_add Nat.eq_dec (ws_id ws) (clients w);
     ticks := ticks w; trace := trace w |}.

Definition unregister (ws : websocket) (w : world) : world :=
  {| clients := set_remove Nat.eq_dec (ws_id ws) (clients w);
     ticks := ticks w; trace := trace w |}.

(** The text of the response. *)
Definition response_text (rates : list (json * rate_dict)) : string :=
  join newline (response_lines rates).

Definition not_audit (ev : event) : Prop :=
  match ev with
  | FileAppend _ _ => False
  | _ => True
  end.

(** [d[k]] on an insertion-ordered dict with JSON keys. *)
Fixpoint lookup_key {V : Type} (k : json) (d : list (json * V)) : option V :=
  match d with
  | [] => None
  | (k', v) :: rest => if key_eqb k' k then Some v else lookup_key k rest
  end.

(** No key of the dict equals a later one. *)
Definition distinct_keys {V : Type} (d : list (json * V)) : Prop :=
  ForallOrdPairs (fun a b => key_eqb (fst a) (fst b) = false) d.

(** The currency and the sale rate of a rate object. *)
Definition quote_of (rate : json) : option (string * json) :=
  match rate with
  | JObj members =>
      match assoc "currency" members, assoc "saleRate" members with
      | Some (JStr code), Some value => Some (code, value)
      | _, _ => None
      end
  | _ => None
  end.

Definition requested_code (wanted : list string) (q : string * json) : bool :=
  existsb (String.eqb (fst q)) wanted.

(** The quotes of the requested currencies, as the entries of a dict. *)
Definition kept (wanted : list string) (quotes : list (string * json))
    : rate_dict :=
  map (fun q => (JStr (fst q), snd q)) (filter (requested_code wanted) quotes).

(** The date of a record. *)
Definition date_of (entry : json) : option string :=
  match getitem entry "date" with
  | Ok (JStr s) => Some s
  | _ => None
  end.

(** A frame the handler passes over: it has a first word and that word is
    not [exchange]. *)
Definition passed_over (message : string) : bool :=
  match split message with
  | [] => false
  | command :: _ => negb (String.eqb command "exchange")
  end.

(** The same connection with other frames to come. *)
Definition with_inbox (ws : websocket) (frames : list string) : websocket :=
  {| ws_id := ws_id ws; inbox := frames; ending := ending ws |}.

(** The fetch raises: an exception leaves its coroutine. *)
Definition raises (r : reply) (e : exn) : Prop := settled r = Raise e.

(** A rate object as the loop of [extract_rates] needs it: a string
    [currency], and a [saleRate] when that currency is requested. *)
Definition is_rate_for (wanted : list string) (rate : json) : bool :=
  match rate with
  | JObj members =>
      match assoc "currency" members with
      | Some (JStr code) =>
          if existsb (String.eqb code) wanted
          then match assoc "saleRate" members with
               | Some _ => true
               | None => false
               end
          else true
      | _ => false
      end
  | _ => false
  end.

(** An entry the loop accepts: [None], or an object with a string [date]
    and a list [exchangeRate] of such rate objects. *)
Definition is_entry_for (wanted : list string) (entry : json) : bool :=
  match entry with
  | JNull => true
  | JObj members =>
      match assoc "date" members, assoc "exchangeRate" members with
      | Some (JStr _), Some (JArr rates) => forallb (is_rate_for wanted) rates
      | _, _ => false
      end
  | _ => false
  end.

End Vocabulary.

(** * Properties *)

Section Properties.
Context {NUM : PyNumber} {TXT : PyText}.
Variable E : env.

(** ** Effects of a computation on the state *)

Lemma advance_nothing (w : world) : advance 0 [] w = w.
Proof.
  destruct w as [c t tr]; unfold advance; simpl.
  now rewrite Nat.add_0_r, app_nil_r.
Qed.

Lemma advance_advance (n m : nat) (e1 e2 : list event) (w : world) :
  advance m e2 (advance n e1 w) = advance (n + m) (e1 ++ e2) w.
Proof.
  unfold advance; simpl. now rewrite Nat.add_assoc, app_assoc.
Qed.

Lemma emit_advance (ev : event) (w : world) :
  emit ev w = (Ok tt, advance 0 [ev] w).
Proof.
  unfold emit, advance. now rewrite Nat.add_0_r.
Qed.

Lemma step_advance (w : world) : step w = (Ok (ticks w), advance 1 [] w).
Proof.
  unfold step, advance. now rewrite Nat.add_1_r, app_nil_r.
Qed.

Lemma now_advance (w : world) :
  now E w = (Ok (clock E (ticks w)), advance 1 [] w).
Proof.
  unfold now, bind. now rewrite step_advance.
Qed.

Lemma emits_weaken (P Q : event -> Prop) {A : Type} (m : M A) :
  (forall ev, P ev -> Q ev) -> emits P m -> emits Q m.
Proof.
  intros HPQ Hm w. destruct (Hm w) as (n & evs & Hw & Hevs).
  exists n, evs. split; [exact Hw|].
  eapply Forall_impl; [|exact Hevs]. exact HPQ.
Qed.

Lemma emits_ret (P : event -> Prop) {A : Type} (a : A) : emits P (ret a).
Proof.
  intros w. exists 0%nat, []. simpl. now rewrite advance_nothing.
Qed.

Lemma emits_raise (P : event -> Prop) {A : Type} (e : exn) :
  emits P (@raise A e).
Proof.
  intros w. exists 0%nat, []. simpl. now rewrite advance_nothing.
Qed.

Lemma emits_lift (P : event -> Prop) {A : Type} (r : result A) :
  emits P (lift r).
Proof.
  intros w. exists 0%nat, []. simpl. now rewrite advance_nothing.
Qed.

Lemma emits_emit (P : event -> Prop) (ev : event) : P ev -> emits P (emit ev).
Proof.
  intros Hev w. exists 0%nat, [ev]. rewrite emit_advance. simpl. auto.
Qed.

Lemma emits_step (P : event -> Prop) : emits P step.
Proof.
  intros w. exists 1%nat, []. now rewrite step_advance.
Qed.

Lemma emits_bind (P : event -> Prop) {A B : Type} (m : M A) (k : A -> M B) :
  emits P m -> (forall a, emits P (k a)) -> emits P (bind m k).
Proof.
  intros Hm Hk w. unfold bind.
  destruct (Hm w) as (n & evs & Hw & Hevs).
  destruct (m w) as [[a|e] w1]; simpl in Hw; subst w1.
  - destruct (Hk a (advance n evs w)) as (n' & evs' & Hw' & Hevs').
    exists (n + n')%nat, (evs ++ evs'). rewrite Hw', advance_advance.
    split; [reflexivity | now apply Forall_app].
  - exists n, evs. now split.
Qed.

Lemma emits_finally (P : event -> Prop) {A : Type} (m : M A) (f : M unit) :
  emits P m -> emits P f -> emits P (finally m f).
Proof.
  intros Hm Hf w. unfold finally.
  destruct (Hm w) as (n & evs & Hw & Hevs).
  destruct (m w) as [r w1]; simpl in Hw; subst w1.
  destruct (Hf (advance n evs w)) as (n' & evs' & Hw' & Hevs').
  exists (n + n')%nat, (evs ++ evs').
  destruct (f (advance n evs w)) as [[u|e] w2]; simpl in *; subst w2;
    rewrite advance_advance; (split; [reflexivity | now apply Forall_app]).
Qed.

Lemma emits_try_except (P : event -> Prop) {A : Type} (m : M A)
    (C : exn -> bool) (h : exn -> M A) :
  emits P m -> (forall e, emits P (h e)) -> emits P (try_except m C h).
Proof.
  intros Hm Hh w. unfold try_except.
  destruct (Hm w) as (n & evs & Hw & Hevs).
  destruct (m w) as [[a|e] w1]; simpl in Hw; subst w1.
  - exists n, evs. now split.
  - destruct (C e).
    + destruct (Hh e (advance n evs w)) as (n' & evs' & Hw' & Hevs').
      exists (n + n')%nat, (evs ++ evs'). rewrite Hw', advance_advance.
      split; [reflexivity | now apply Forall_app].
    + exists n, evs. now split.
Qed.

(** ** The fetcher *)

Lemma resume_advance (p : pending) (w : world) :
  resume p w = (settled (reply_of p), advance 0 (diagnostic (reply_of p)) w).
Proof.
  unfold resume, try_except, lift, settled, diagnostic.
  destruct (read_response (answer_of (reply_of p))) as [j|e].
  - now rewrite advance_nothing.
  - destruct (is_ClientError e).
    + unfold bind. rewrite emit_advance. reflexivity.
    + now rewrite advance_nothing.
Qed.

Lemma send_request_advance (co : coroutine) (w : world) :
  send_request E co w =
  (Ok {| url_of := API_URL (co_date co);
         reply_of := remote E (ticks w) (API_URL (co_date co)) |},
   advance 1 [HttpGet (API_URL (co_date co))] w).
Proof.
  unfold send_request, bind. rewrite emit_advance, step_advance.
  unfold ret. rewrite advance_advance. simpl.
  now rewrite Nat.add_0_r.
Qed.

Lemma make_tasks_advance (s : session) (n : nat) :
  forall (i : Z) (w : world),
    make_tasks E s i n w =
    (Ok (map (fun k => {| co_session := s;
                          co_date := minus_days (clock E (ticks w + k))
                                       (i + Z.of_nat k) |})
             (seq 0 n)),
     advance n [] w).
Proof.
  induction n as [|n IH]; intros i w.
  - simpl. unfold ret. now rewrite advance_nothing.
  - cbn [make_tasks]. unfold bind at 1. rewrite now_advance.
    unfold bind at 1. rewrite IH. unfold ret.
    rewrite advance_advance. cbn [seq map app]. f_equal. f_equal.
    f_equal.
    + now rewrite Nat.add_0_r, Z.add_0_r.
    + rewrite <- seq_shift, map_map. apply map_ext. intros k.
      cbn [advance ticks].
      replace (ticks w + 1 + k)%nat with (ticks w + S k)%nat by lia.
      replace (i + 1 + Z.of_nat k) with (i + Z.of_nat (S k)) by lia.
      reflexivity.
Qed.

Lemma start_all_advance (tasks : list coroutine) :
  forall (i : nat) (w : world),
    start_all E i tasks w =
    (Ok (number_from i (pendings_from E (ticks w) tasks)),
     advance (List.length tasks)
       (map (fun co => HttpGet (API_URL (co_date co))) tasks) w).
Proof.
  induction tasks as [|co rest IH]; intros i w.
  - simpl. unfold ret. now rewrite advance_nothing.
  - cbn [start_all]. unfold bind at 1. rewrite send_request_advance.
    unfold bind at 1. rewrite IH. unfold ret.
    rewrite advance_advance. cbn [advance ticks].
    now rewrite Nat.add_1_r.
Qed.

Lemma pendings_from_seq (f : nat -> datetime) (s : session) (n : nat) :
  forall (a t : nat),
    pendings_from E t
      (map (fun k => {| co_session := s; co_date := f k |}) (seq a n)) =
    map (fun k => {| url_of := API_URL (f k);
                     reply_of := remote E (t + k - a) (API_URL (f k)) |})
        (seq a n).
Proof.
  induction n as [|n IH]; intros a t; [reflexivity|].
  cbn [seq map pendings_from co_date]. f_equal.
  - now rewrite Nat.add_sub.
  - rewrite IH. apply map_ext_in. intros k Hk. apply in_seq in Hk.
    replace (S t + k - S a)%nat with (t + k - a)%nat by lia. reflexivity.
Qed.

Lemma arrive_perm (p : nat * pending) (l : list (nat * pending)) :
  Permutation (arrive p l) (p :: l).
Proof.
  induction l as [|q rest IH]; simpl; [reflexivity|].
  destruct (_ <? _)%nat; [|reflexivity].
  rewrite IH. apply perm_swap.
Qed.

Lemma by_completion_perm (ps : list (nat * pending)) :
  Permutation (by_completion ps) ps.
Proof.
  induction ps as [|p rest IH]; simpl; [reflexivity|].
  rewrite arrive_perm. now constructor.
Qed.

Lemma settle_advance (order : list (nat * pending)) :
  Forall (fun ip => settles (reply_of (snd ip))) order ->
  forall w,
    settle order w =
    (Ok (map (fun ip => (fst ip, value_of (reply_of (snd ip)))) order),
     advance 0 (flat_map (fun ip => diagnostic (reply_of (snd ip))) order) w).
Proof.
  induction 1 as [|[i p] rest [j Hj] _ IH]; intros w.
  - simpl. unfold ret. now rewrite advance_nothing.
  - cbn [settle]. unfold bind at 1. rewrite resume_advance.
    cbn [snd] in Hj. rewrite Hj. unfold bind at 1. rewrite IH. unfold ret.
    rewrite advance_advance. cbn [map flat_map fst snd].
    unfold value_of. now rewrite Hj.
Qed.

Lemma settle_returns (order : list (nat * pending)) :
  forall w done w',
    settle order w = (Ok done, w') ->
    Forall (fun ip => settles (reply_of (snd ip))) order.
Proof.
  induction order as [|[i p] rest IH]; intros w done w' H; [constructor|].
  cbn [settle] in H. unfold bind at 1 in H. rewrite resume_advance in H.
  destruct (settled (reply_of p)) as [j|e] eqn:Hp; [|discriminate].
  constructor.
  - now exists j.
  - unfold bind at 1 in H.
    destruct (settle rest _) as [[d|e] w1] eqn:Hrest; [|discriminate].
    eapply IH; eauto.
Qed.

Lemma emits_resume (p : pending) : emits is_log (resume p).
Proof.
  intros w. rewrite resume_advance. exists 0%nat, (diagnostic (reply_of p)).
  split; [reflexivity|]. unfold diagnostic.
  destruct (read_response _) as [j|e]; [constructor|].
  destruct (is_ClientError e); repeat constructor.
Qed.

Lemma emits_settle (order : list (nat * pending)) :
  emits is_log (settle order).
Proof.
  induction order as [|[i p] rest IH]; simpl.
  - apply emits_ret.
  - apply emits_bind; [apply emits_resume|]. intros v.
    apply emits_bind; [exact IH|]. intros d. apply emits_ret.
Qed.

Lemma result_of_in (done : list (nat * json)) (i : nat) (v : json) :
  NoDup (map fst done) -> In (i, v) done -> result_of i done = v.
Proof.
  induction done as [|[k u] rest IH]; intros Hnd Hin; [destruct Hin|].
  cbn [map fst] in Hnd. inversion Hnd as [|? ? Hk Hrest]; subst.
  cbn [result_of]. destruct Hin as [Heq|Hin].
  - inversion Heq; subst. now rewrite Nat.eqb_refl.
  - destruct (Nat.eqb_spec k i) as [->|_]; [|now apply IH].
    exfalso. apply Hk. change i with (fst (i, v)). now apply in_map.
Qed.

Lemma number_from_fst {A : Type} (l : list A) :
  forall i, map fst (number_from i l) = seq i (List.length l).
Proof.
  induction l as [|a rest IH]; intros i; simpl; [reflexivity|].
  now rewrite IH.
Qed.

Lemma number_from_snd {A : Type} (l : list A) :
  forall i, map snd (number_from i l) = l.
Proof.
  induction l as [|a rest IH]; intros i; simpl; [reflexivity|].
  now rewrite IH.
Qed.

Lemma results_in_order (done : list (nat * json)) (f : pending -> json)
    (ps : list pending) :
  forall i,
    (forall k p, In (k, p) (number_from i ps) -> result_of k done = f p) ->
    map (fun k => result_of k done) (seq i (List.length ps)) = map f ps.
Proof.
  induction ps as [|p rest IH]; intros i H; [reflexivity|].
  cbn [List.length seq map]. f_equal.
  - apply H. now left.
  - apply IH. intros k q Hq. apply H. now right.
Qed.

Lemma pendings_length (tasks : list coroutine) :
  forall t, List.length (pendings_from E t tasks) = List.length tasks.
Proof.
  induction tasks as [|co rest IH]; intros t; simpl; [reflexivity|].
  now rewrite IH.
Qed.

(** [gather] when every fetch settles: the results in argument order. *)
Lemma gather_settles (tasks : list coroutine) (w : world) :
  let ps := pendings_from E (ticks w) tasks in
  Forall (fun p => settles (reply_of p)) ps ->
  gather E tasks w =
  (Ok (map (fun p => value_of (reply_of p)) ps),
   advance (List.length tasks)
     (map (fun co => HttpGet (API_URL (co_date co))) tasks
      ++ flat_map (fun ip => diagnostic (reply_of (snd ip)))
           (by_completion (number_from 0 ps))) w).
Proof.
  intros ps Hps. unfold gather, bind at 1. rewrite start_all_advance.
  fold ps. unfold bind at 1.
  assert (Hperm := by_completion_perm (number_from 0 ps)).
  rewrite settle_advance.
  2:{ eapply Permutation_Forall; [symmetry; exact Hperm|].
      apply Forall_forall. intros [k p] Hin. cbn [snd].
      rewrite Forall_forall in Hps. apply Hps.
      rewrite <- (number_from_snd ps 0). change p with (snd (k, p)).
      now apply in_map. }
  unfold ret. rewrite advance_advance, Nat.add_0_r. f_equal. f_equal.
  rewrite <- (pendings_length tasks (ticks w)). fold ps.
  apply results_in_order. intros k p Hin.
  apply result_of_in.
  - rewrite map_map. cbn [fst].
    eapply Permutation_NoDup.
    + apply Permutation_map. symmetry. exact Hperm.
    + rewrite number_from_fst. apply seq_NoDup.
  - apply (in_map (fun ip => (fst ip, value_of (reply_of (snd ip)))))
      with (x := (k, p)).
    eapply Permutation_in; [symmetry; exact Hperm | exact Hin].
Qed.

(** [gather] returns only when every fetch has settled. *)
Lemma gather_returns (tasks : list coroutine) (w w' : world)
    (results : list json) :
  gather E tasks w = (Ok results, w') ->
  Forall (fun p => settles (reply_of p)) (pendings_from E (ticks w) tasks).
Proof.
  unfold gather, bind at 1. rewrite start_all_advance.
  unfold bind at 1. intros H.
  destruct (settle _ _) as [[done|e] w1] eqn:Hs; [|discriminate].
  apply settle_returns in Hs.
  assert (Hperm := by_completion_perm
                     (number_from 0 (pendings_from E (ticks w) tasks))).
  eapply Permutation_Forall in Hs; [|exact Hperm].
  rewrite Forall_forall in Hs. apply Forall_forall. intros p Hp.
  rewrite <- (number_from_snd (pendings_from E (ticks w) tasks) 0) in Hp.
  apply in_map_iff in Hp. destruct Hp as ([k q] & Hq & Hin).
  cbn [snd] in Hq. subst q. exact (Hs _ Hin).
Qed.

Lemma emits_gather (tasks : list coroutine) :
  emits is_fetch_event (gather E tasks).
Proof.
  intros w. unfold gather, bind at 1. rewrite start_all_advance.
  unfold bind at 1.
  destruct (emits_settle
              (by_completion (number_from 0 (pendings_from E (ticks w) tasks)))
              (advance (List.length tasks)
                 (map (fun co => HttpGet (API_URL (co_date co))) tasks) w))
    as (n & evs & Hw & Hevs).
  destruct (settle _ _) as [[done|e] w1]; cbn [snd] in Hw; subst w1;
    cbn [snd ret]; rewrite advance_advance;
    eexists _, _; (split; [reflexivity|]);
    (apply Forall_app; split;
     [ apply Forall_forall; intros ev Hev; apply in_map_iff in Hev;
       destruct Hev as (co & <- & _); exact I
     | eapply Forall_impl; [|exact Hevs]; intros [] Hl; try destruct Hl;
       exact I ]).
Qed.

Lemma batch_from_tasks (w : world) (n : nat) :
  pendings_from E (ticks w + n) (batch_tasks E w n) = batch_pendings E w n.
Proof.
  unfold batch_tasks. rewrite (pendings_from_seq (date_at E w)).
  apply map_ext. intros k. unfold reply_at. now rewrite Nat.sub_0_r.
Qed.

Lemma batch_replies (w : world) (n : nat) :
  map reply_of (batch_pendings E w n) = batch E w n.
Proof.
  unfold batch_pendings, batch. now rewrite map_map.
Qed.

Lemma batch_tasks_urls (w : world) (n : nat) :
  map (fun co => HttpGet (API_URL (co_date co))) (batch_tasks E w n) =
  map HttpGet (batch_urls E w n).
Proof.
  unfold batch_urls, batch_tasks. now rewrite !map_map.
Qed.

Lemma batch_tasks_length (w : world) (n : nat) :
  List.length (batch_tasks E w n) = n.
Proof.
  unfold batch_tasks. now rewrite length_map, length_seq.
Qed.

(** [fetch_last_days] is [gather] on the batch, inside the session. *)
Lemma fetch_last_days_unfold (self : ExchangeRateFetcher) (d : Z) (w : world) :
  let n := Z.to_nat d in
  fetch_last_days E self (Some d) w =
  let (r, w1) := gather E (batch_tasks E w n) (advance n [SessionOpen] w) in
  (r, advance 0 [SessionClose] w1).
Proof.
  intros n. unfold fetch_last_days. unfold bind at 1. rewrite emit_advance.
  unfold finally. unfold bind at 1. rewrite make_tasks_advance.
  fold n. rewrite advance_advance. cbn [app Nat.add].
  replace (map _ (seq 0 n)) with (batch_tasks E w n).
  2:{ unfold batch_tasks. apply map_ext. intros k. unfold date_at.
      cbn [advance ticks]. now rewrite Nat.add_0_r, Z.add_0_l. }
  unfold bind at 1.
  destruct (gather E _ _) as [[results|e] w1]; cbn [ret];
    rewrite emit_advance; reflexivity.
Qed.

Lemma batch_settles (w : world) (n : nat) :
  Forall settles (batch E w n) <->
  Forall (fun p => settles (reply_of p)) (batch_pendings E w n).
Proof.
  rewrite <- batch_replies, Forall_map. reflexivity.
Qed.

(** When every fetch of the batch settles, [fetch_last_days] returns their
    results in date order. *)
Lemma fetch_last_days_settles (self : ExchangeRateFetcher) (d : Z)
    (w : world) :
  let n := Z.to_nat d in
  Forall settles (batch E w n) ->
  fetch_last_days E self (Some d) w =
  (Ok (map value_of (batch E w n)),
   advance (n + n)
     (SessionOpen :: map HttpGet (batch_urls E w n) ++ batch_log E w n
      ++ [SessionClose]) w).
Proof.
  intros n Hs. rewrite fetch_last_days_unfold. fold n.
  apply batch_settles in Hs.
  rewrite gather_settles; cbn [advance ticks];
    rewrite batch_from_tasks; [|exact Hs].
  rewrite batch_tasks_urls, batch_tasks_length, !advance_advance.
  rewrite <- batch_replies, map_map. f_equal.
  unfold batch_log. rewrite Nat.add_0_r. cbn [app].
  now rewrite <- app_assoc.
Qed.

(** [fetch_last_days] returns only when every fetch of the batch has
    settled. *)
Lemma fetch_last_days_returns (self : ExchangeRateFetcher) (d : Z)
    (w w' : world) (results : list json) :
  fetch_last_days E self (Some d) w = (Ok results, w') ->
  Forall settles (batch E w (Z.to_nat d)).
Proof.
  rewrite fetch_last_days_unfold.
  destruct (gather E _ _) as [[r|e] w1] eqn:Hg; [|discriminate].
  intros _. apply gather_returns in Hg. cbn [advance ticks] in Hg.
  rewrite batch_from_tasks in Hg. now apply batch_settles.
Qed.

(** The GETs of the batch all go out, whatever the replies. *)
Lemma fetch_last_days_requests (self : ExchangeRateFetcher) (d : Z)
    (w : world) :
  let n := Z.to_nat d in
  exists m logs,
    snd (fetch_last_days E self (Some d) w) =
    advance m (SessionOpen :: map HttpGet (batch_urls E w n) ++ logs
               ++ [SessionClose]) w
    /\ Forall is_log logs.
Proof.
  intros n. rewrite fetch_last_days_unfold. fold n.
  unfold gather, bind at 1. rewrite start_all_advance.
  unfold bind at 1.
  destruct (emits_settle
              (by_completion
                 (number_from 0
                    (pendings_from E (ticks (advance n [SessionOpen] w))
                       (batch_tasks E w n))))
              (advance (List.length (batch_tasks E w n))
                 (map (fun co => HttpGet (API_URL (co_date co)))
                    (batch_tasks E w n))
                 (advance n [SessionOpen] w)))
    as (m & logs & Hw & Hlogs).
  exists (n + List.length (batch_tasks E w n) + m + 0)%nat, logs.
  split; [|exact Hlogs].
  destruct (settle _ _) as [[done|e] w1]; cbn [snd] in Hw; subst w1;
    cbn [snd ret]; rewrite !advance_advance, batch_tasks_urls;
    cbn [app]; f_equal; lia.
Qed.

Lemma emits_fetch_last_days (self : ExchangeRateFetcher) (d : option Z) :
  emits is_fetch_event (fetch_last_days E self d).
Proof.
  unfold fetch_last_days.
  apply emits_bind; [now apply emits_emit|]. intros _.
  apply emits_finally; [|now apply emits_emit].
  apply emits_bind.
  - generalize 0. generalize (Z.to_nat match d with
                                         | Some d0 => d0
                                         | None => days self
                                         end).
    intros n. induction n as [|n IH]; intros i; simpl.
    + apply emits_ret.
    + apply emits_bind.
      * unfold now. apply emits_bind; [apply emits_step|].
        intros t. apply emits_ret.
      * intros t. apply emits_bind; [apply IH|]. intros r. apply emits_ret.
  - intros tasks. apply emits_bind; [apply emits_gather|].
    intros r. apply emits_ret.
Qed.

(** ** Insertion-ordered dicts *)

Lemma dict_set_length {K V : Type} (eqb : K -> K -> bool) (k : K) (v : V)
    (d : list (K * V)) :
  (List.length (dict_set eqb k v d) <= S (List.length d))%nat.
Proof.
  induction d as [|[k' v'] rest IH]; simpl; [lia|].
  destruct (eqb k' k); simpl; lia.
Qed.

Lemma dict_set_keys {K V : Type} (eqb : K -> K -> bool) (P : K -> Prop)
    (k : K) (v : V) (d : list (K * V)) :
  Forall (fun kv => P (fst kv)) d -> P k ->
  Forall (fun kv => P (fst kv)) (dict_set eqb k v d).
Proof.
  intros Hd Hk. induction Hd as [|[k' v'] rest Hk' Hrest IH]; simpl.
  - now repeat constructor.
  - destruct (eqb k' k); constructor; auto.
Qed.

Lemma dict_set_values {K V : Type} (eqb : K -> K -> bool) (Q : V -> Prop)
    (k : K) (v : V) (d : list (K * V)) :
  Forall (fun kv => Q (snd kv)) d -> Q v ->
  Forall (fun kv => Q (snd kv)) (dict_set eqb k v d).
Proof.
  intros Hd Hv. induction Hd as [|[k' v'] rest Hv' Hrest IH]; simpl.
  - now repeat constructor.
  - destruct (eqb k' k); constructor; auto.
Qed.


(** Among string keys, [key_eqb] is equality: the keys after [d[k] = v] are
    the keys before and [k]. *)
Lemma dict_set_str_keys {V : Type} (s : string) (v : V)
    (d : list (json * V)) (k : json) :
  Forall (fun kv => is_str (fst kv)) d ->
  In k (map fst (dict_set key_eqb (JStr s) v d)) <->
  k = JStr s \/ In k (map fst d).
Proof.
  intros Hd. induction Hd as [|[k' v'] rest [s' Hs'] _ IH]; simpl.
  - intuition congruence.
  - cbn [fst] in Hs'. subst k'. cbn [key_eqb].
    destruct (String.eqb_spec s' s) as [->|Hne]; cbn [map fst In].
    + intuition congruence.
    + rewrite IH. intuition congruence.
Qed.

(** ** extract_rates *)


Lemma in_currencies_wanted (wanted : list string) (code : json) :
  in_currencies code wanted = true -> wanted_code wanted code.
Proof.
  destruct code; simpl; try discriminate. intros H.
  apply existsb_exists in H. destruct H as (c & Hc & Heq).
  apply String.eqb_eq in Heq. subst c. now exists s.
Qed.

Lemma comprehension_wanted (wanted : list string) (rates : list json) :
  forall acc d,
    comprehension wanted rates acc = Ok d ->
    Forall (fun kv => wanted_code wanted (fst kv)) acc ->
    Forall (fun kv => wanted_code wanted (fst kv)) d.
Proof.
  induction rates as [|rate rest IH]; intros acc d H Hacc; simpl in H.
  - now inversion H; subst.
  - destruct (getitem rate "currency") as [code|e]; [|discriminate].
    destruct (in_currencies code wanted) eqn:Hc.
    + destruct (getitem rate "saleRate") as [value|e]; [|discriminate].
      eapply IH; [exact H|]. apply dict_set_keys; [exact Hacc|].
      now apply in_currencies_wanted.
    + eapply IH; eauto.
Qed.

Lemma comprehension_total (wanted : list string) (rates : list json) :
  forallb is_rate rates = true ->
  forall acc, exists d, comprehension wanted rates acc = Ok d.
Proof.
  induction rates as [|rate rest IH]; intros H acc; simpl.
  - now exists acc.
  - simpl in H. apply andb_true_iff in H. destruct H as [Hrate Hrest].
    destruct rate as [| | | | |members]; try discriminate.
    simpl in Hrate |- *.
    destruct (assoc "currency" members) as [code|]; [|discriminate].
    destruct code; try discriminate.
    destruct (assoc "saleRate" members) as [value|]; [|discriminate].
    destruct (in_currencies (JStr s) wanted); now apply IH.
Qed.


Lemma add_entry_wanted (wanted : list string) (entry : json)
    (rates rates' : list (json * rate_dict)) :
  add_entry wanted entry rates = Ok rates' ->
  codes_wanted wanted rates -> codes_wanted wanted rates'.
Proof.
  unfold add_entry. intros H Hr.
  destruct (getitem entry "date") as [date|e]; [|discriminate].
  destruct (getitem entry "exchangeRate") as [rl|e]; [|discriminate].
  destruct (py_iter rl) as [items|e]; [|discriminate].
  destruct (comprehension wanted items []) as [d|e] eqn:Hd; [|discriminate].
  destruct (hashable date); [|discriminate].
  inversion H; subst. apply dict_set_values; [exact Hr|].
  eapply comprehension_wanted; [exact Hd | constructor].
Qed.

Lemma extract_loop_wanted (wanted : list string) (data : list json) :
  forall rates rates',
    extract_loop wanted data rates = Ok rates' ->
    codes_wanted wanted rates -> codes_wanted wanted rates'.
Proof.
  induction data as [|entry rest IH]; intros rates rates' H Hr; simpl in H.
  - now inversion H; subst.
  - destruct (truthy entry).
    + destruct (add_entry wanted entry rates) as [r1|e] eqn:Hadd;
        [|discriminate].
      eapply IH; [exact H|]. eapply add_entry_wanted; eauto.
    + eapply IH; eauto.
Qed.

Lemma add_entry_length (wanted : list string) (entry : json)
    (rates rates' : list (json * rate_dict)) :
  add_entry wanted entry rates = Ok rates' ->
  (List.length rates' <= S (List.length rates))%nat.
Proof.
  unfold add_entry. intros H.
  destruct (getitem entry "date") as [date|e]; [|discriminate].
  destruct (getitem entry "exchangeRate") as [rl|e]; [|discriminate].
  destruct (py_iter rl) as [items|e]; [|discriminate].
  destruct (comprehension wanted items []) as [d|e]; [|discriminate].
  destruct (hashable date); [|discriminate].
  inversion H; subst. apply dict_set_length.
Qed.

Lemma extract_loop_length (wanted : list string) (data : list json) :
  forall rates rates',
    extract_loop wanted data rates = Ok rates' ->
    (List.length rates' <= List.length rates + List.length data)%nat.
Proof.
  induction data as [|entry rest IH]; intros rates rates' H; simpl in H.
  - inversion H; subst. simpl. lia.
  - destruct (truthy entry).
    + destruct (add_entry wanted entry rates) as [r1|e] eqn:Hadd;
        [|discriminate].
      apply IH in H. apply add_entry_length in Hadd. simpl. lia.
    + apply IH in H. simpl. lia.
Qed.

Lemma extract_loop_skip (wanted : list string) (data : list json) :
  forall rates,
    extract_loop wanted data rates =
    extract_loop wanted (filter truthy data) rates.
Proof.
  induction data as [|entry rest IH]; intros rates; simpl; [reflexivity|].
  destruct (truthy entry) eqn:Ht; simpl.
  - rewrite Ht. destruct (add_entry wanted entry rates); [apply IH|reflexivity].
  - apply IH.
Qed.

Lemma extract_loop_absent (wanted : list string) (data : list json)
    (rates : list (json * rate_dict)) :
  Forall (fun entry => truthy entry = false) data ->
  extract_loop wanted data rates = Ok rates.
Proof.
  induction 1 as [|entry rest Hentry _ IH]; simpl; [reflexivity|].
  now rewrite Hentry.
Qed.

Lemma record_truthy (entry : json) : is_record entry = true -> truthy entry = true.
Proof.
  destruct entry as [| | | | |members]; try discriminate.
  destruct members; [discriminate | reflexivity].
Qed.

(** A record goes into the mapping under its own date. *)
Lemma add_entry_record (wanted : list string) (entry : json)
    (rates : list (json * rate_dict)) :
  is_record entry = true ->
  exists s d,
    getitem entry "date" = Ok (JStr s)
    /\ add_entry wanted entry rates = Ok (dict_set key_eqb (JStr s) d rates).
Proof.
  destruct entry as [| | | | |members]; try discriminate.
  unfold add_entry. simpl.
  destruct (assoc "date" members) as [date|]; [|discriminate].
  destruct date; try discriminate.
  destruct (assoc "exchangeRate" members) as [rl|]; [|discriminate].
  destruct rl; try discriminate. intros Hrates.
  destruct (comprehension_total wanted items Hrates []) as [d Hd].
  exists s, d. simpl. now rewrite Hd.
Qed.

Lemma extract_loop_records (wanted : list string) (data : list json) :
  Forall (fun entry => is_entry entry = true) data ->
  forall rates,
    Forall (fun dr => is_str (fst dr)) rates ->
    exists rates',
      extract_loop wanted data rates = Ok rates'
      /\ Forall (fun dr => is_str (fst dr)) rates'
      /\ forall k,
           In k (map fst rates') <->
           In k (map fst rates)
           \/ exists entry,
                In entry data /\ is_record entry = true
                /\ getitem entry "date" = Ok k.
Proof.
  induction 1 as [|entry rest Hentry _ IH]; intros rates Hkeys.
  - exists rates. simpl. split; [reflexivity|]. split; [exact Hkeys|].
    intros k. split; [now left|]. now intros [H|(e & [] & _)].
  - destruct entry as [| | | | |members]; try discriminate.
    + destruct (IH rates Hkeys) as (r & Hr & Hk & Hiff).
      exists r. simpl. split; [exact Hr|]. split; [exact Hk|].
      intros k. rewrite Hiff. split; intros [H|(e & He & Hrec & Hd)]; auto.
      * right. exists e. auto.
      * destruct He as [<-|He]; [discriminate|]. right. now exists e.
    + cbn [is_entry] in Hentry.
      destruct (add_entry_record wanted (JObj members) rates Hentry)
        as (s & d & Hdate & Hadd).
      cbn [extract_loop]. rewrite (record_truthy _ Hentry), Hadd.
      destruct (IH (dict_set key_eqb (JStr s) d rates)) as (r & Hr & Hk & Hiff).
      { apply dict_set_keys; [exact Hkeys | now exists s]. }
      exists r. split; [exact Hr|]. split; [exact Hk|].
      intros k. rewrite Hiff, dict_set_str_keys by exact Hkeys.
      split.
      * intros [[->|H]|(e & He & Hrec & Hd)]; auto.
        -- right. exists (JObj members). simpl. auto.
        -- right. exists e. simpl. auto.
      * intros [H|(e & [<-|He] & Hrec & Hd)]; auto.
        -- left. left. congruence.
        -- right. now exists e.
Qed.

(** ** WebSocketChat *)

Lemma ws_send_advance (ws : websocket) (text : string) (w : world) :
  ws_send E ws text w =
  (match send_fault E (ticks w) (ws_id ws) with
   | None => Ok tt
   | Some e => Raise e
   end,
   advance 1 [WsSend (ws_id ws) text] w).
Proof.
  unfold ws_send, bind. rewrite emit_advance, step_advance.
  rewrite advance_advance. cbn [advance ticks]. rewrite Nat.add_0_r.
  destruct (send_fault E (ticks w) (ws_id ws)); reflexivity.
Qed.

Lemma append_audit_advance (params : list string) (w : world) :
  append_audit E params w =
  match open_fault E (ticks w) "exchange.log" with
  | Some e => (Raise e, advance 1 [] w)
  | None =>
      (Ok tt,
       advance 2 [FileAppend "exchange.log"
                    (audit_line params (clock E (S (ticks w))))] w)
  end.
Proof.
  unfold append_audit, bind at 1. rewrite step_advance.
  destruct (open_fault E (ticks w) "exchange.log"); [reflexivity|].
  unfold bind. rewrite now_advance, emit_advance, !advance_advance.
  cbn [advance ticks app Nat.add]. now rewrite Nat.add_1_r.
Qed.

Lemma emits_ws_send (ws : websocket) (text : string) :
  emits (fun _ => True) (ws_send E ws text).
Proof.
  intros w. rewrite ws_send_advance. eexists _, _. split; [reflexivity|].
  now repeat constructor.
Qed.

Lemma emits_append_audit (params : list string) :
  emits (fun _ => True) (append_audit E params).
Proof.
  intros w. rewrite append_audit_advance.
  destruct (open_fault E (ticks w) "exchange.log");
    eexists _, _; (split; [reflexivity|]); now repeat constructor.
Qed.

Lemma emits_exchange_command (self : WebSocketChat) (ws : websocket)
    (params : list string) :
  emits (fun _ => True) (exchange_command E self ws params).
Proof.
  unfold exchange_command. apply emits_bind; [apply emits_lift|].
  intros N. destruct (10 <? N); [apply emits_ws_send|].
  apply emits_bind.
  { eapply emits_weaken; [|apply emits_fetch_last_days]. auto. }
  intros data. apply emits_bind; [apply emits_lift|]. intros rates.
  apply emits_bind; [apply emits_ws_send|]. intros _.
  apply emits_append_audit.
Qed.

(** An accepted command, step by step. *)
Lemma exchange_command_accepted (self : WebSocketChat) (ws : websocket)
    (params : list string) (N : Z) (w : world) :
  parse_days params = Ok N -> N <= 10 ->
  exchange_command E self ws params w =
  match fetch_last_days E (fetcher self) (Some N) w with
  | (Raise e, w1) => (Raise e, w1)
  | (Ok data, w1) =>
      match extract_rates (fetcher self) data with
      | Raise e => (Raise e, w1)
      | Ok rates =>
          match send_fault E (ticks w1) (ws_id ws) with
          | Some e =>
              (Raise e,
               advance 1 [WsSend (ws_id ws) (response_text rates)] w1)
          | None =>
              append_audit E params
                (advance 1 [WsSend (ws_id ws) (response_text rates)] w1)
          end
      end
  end.
Proof.
  intros Hp HN. unfold exchange_command, bind at 1, lift. rewrite Hp.
  apply Z.ltb_ge in HN. rewrite HN. unfold bind at 1.
  destruct (fetch_last_days E (fetcher self) (Some N) w) as [[data|e] w1];
    [|reflexivity].
  unfold bind at 1.
  destruct (extract_rates (fetcher self) data) as [rates|e]; [|reflexivity].
  unfold bind. rewrite ws_send_advance.
  now destruct (send_fault E (ticks w1) (ws_id ws)).
Qed.

(** C1.  For every command [exchange <N>] whose parameter parses to an
    integer above 10, [exchange_command] makes one call on the outside
    world, [websocket.send] with the literal text
    [Error: Maximum number of days is 10]: no session is opened, no GET goes
    out and nothing is appended to the audit log. *)
Theorem exchange_rejects_over_ten (self : WebSocketChat) (ws : websocket)
    (p : string) (more : list string) (N : Z) (w : world) :
  py_int p = Ok N -> 10 < N ->
  exchange_command E self ws (p :: more) w =
  (match send_fault E (ticks w) (ws_id ws) with
   | None => Ok tt
   | Some e => Raise e
   end,
   {| clients := clients w; ticks := S (ticks w);
      trace := trace w
               ++ [WsSend (ws_id ws) "Error: Maximum number of days is 10"] |}).
Proof.
  intros Hp HN. unfold exchange_command, bind at 1, lift, parse_days.
  rewrite Hp. apply Z.ltb_lt in HN. rewrite HN.
  rewrite ws_send_advance. unfold advance. now rewrite Nat.add_1_r.
Qed.

(** C6, as amended.  [fetch_exchange_rate] sends one GET.  When the response
    reads as JSON it returns the parsed value.  When the request fails with
    an [aiohttp.ClientError] (a transport error of that class, a status of
    400 or above, a content type that is not JSON) it logs one line and
    returns [None].  An exception of any other class leaves the function: a
    body that is not a JSON document under a JSON content type raises
    [JSONDecodeError]. *)
Theorem fetch_exchange_rate_absorbs_client_errors (s : session)
    (date : datetime) (w : world) :
  let url := API_URL date in
  let a := answer_of (remote E (ticks w) url) in
  (forall j, read_response a = Ok j ->
     fetch_exchange_rate E s date w = (Ok j, advance 1 [HttpGet url] w))
  /\ (forall e, read_response a = Raise e -> is_ClientError e = true ->
        fetch_exchange_rate E s date w =
        (Ok JNull,
         advance 1 [HttpGet url;
                    LogError ("Request failed: " ++ exn_msg e)%string] w))
  /\ (forall e, read_response a = Raise e -> is_ClientError e = false ->
        fetch_exchange_rate E s date w = (Raise e, advance 1 [HttpGet url] w))
  /\ (forall e, a = Failed e -> read_response a = Raise e)
  /\ (forall status ctype body, a = Response status ctype body ->
        400 <= status ->
        exists e, read_response a = Raise e /\ is_ClientError e = true)
  /\ (forall status body, a = Response status false body -> status < 400 ->
        exists e, read_response a = Raise e /\ is_ClientError e = true)
  /\ (forall status j, a = Response status true (Some j) -> status < 400 ->
        read_response a = Ok j)
  /\ (forall status, a = Response status true None -> status < 400 ->
        read_response a = Raise json_decode_error
        /\ is_ClientError json_decode_error = false).
Proof.
  intros url a.
  assert (Hfetch : fetch_exchange_rate E s date w =
                   (settled (remote E (ticks w) url),
                    advance 1 (HttpGet url
                               :: diagnostic (remote E (ticks w) url)) w)).
  { unfold fetch_exchange_rate, bind. rewrite send_request_advance.
    rewrite resume_advance, advance_advance. cbn [reply_of co_date].
    fold url. now rewrite Nat.add_0_r. }
  rewrite Hfetch. unfold settled, diagnostic. fold a.
  repeat match goal with |- _ /\ _ => split end.
  - intros j ->. reflexivity.
  - intros e -> ->. reflexivity.
  - intros e -> ->. reflexivity.
  - intros e ->. reflexivity.
  - intros status ctype body -> Hs. cbn [read_response].
    apply Z.leb_le in Hs. rewrite Hs. eexists. split; reflexivity.
  - intros status body -> Hs. cbn [read_response].
    apply Z.leb_gt in Hs. rewrite Hs. eexists. split; reflexivity.
  - intros status j -> Hs. cbn [read_response].
    apply Z.leb_gt in Hs. now rewrite Hs.
  - intros status -> Hs. cbn [read_response].
    apply Z.leb_gt in Hs. now rewrite Hs.
Qed.

(** ** The pipeline [fetch_last_days] then [extract_rates] *)

Lemma fetch_last_days_requested (self : ExchangeRateFetcher)
    (days_arg : option Z) :
  fetch_last_days E self days_arg =
  fetch_last_days E self (Some (requested self days_arg)).
Proof.
  now destruct days_arg.
Qed.

Lemma fails_value (r : reply) :
  fails r -> settled r = Ok JNull /\ value_of r = JNull.
Proof.
  intros (e & He & Hc). unfold value_of, settled. now rewrite He, Hc.
Qed.

Lemma succeeds_value (r : reply) (j : json) :
  succeeds r j -> settled r = Ok j /\ value_of r = j.
Proof.
  intros [Hj _]. unfold value_of, settled. now rewrite Hj.
Qed.

Lemma extract_rates_skips_absent (wanted : list string) (data : list json) :
  forall rates,
    extract_loop wanted data rates =
    extract_loop wanted (filter present data) rates.
Proof.
  induction data as [|entry rest IH]; intros rates; [reflexivity|].
  destruct entry; cbn [filter present]; try (cbn [extract_loop truthy];
    repeat match goal with |- context [if ?b then _ else _] => destruct b end;
    try destruct (add_entry _ _ _); auto).
Qed.

(** C3.  Whatever the sequence of entries and the requested currencies,
    every currency code [extract_rates] emits is one of the requested ones;
    entries that are [None] are skipped (dropping them from the input does
    not change the result, nor does dropping every falsy entry); an input
    that is empty or holds [None] only gives the empty mapping; and on
    records and [None] entries [extract_rates] does return a mapping. *)
Theorem extract_rates_keeps_requested_only (self : ExchangeRateFetcher)
    (data : list json) :
  (forall rates date d code value,
     extract_rates self data = Ok rates ->
     In (date, d) rates -> In (code, value) d ->
     exists s, code = JStr s /\ In s (currencies self))
  /\ extract_rates self data = extract_rates self (filter present data)
  /\ extract_rates self data = extract_rates self (filter truthy data)
  /\ (Forall (fun entry => entry = JNull) data ->
      extract_rates self data = Ok [])
  /\ (Forall (fun entry => is_entry entry = true) data ->
      exists rates, extract_rates self data = Ok rates).
Proof.
  unfold extract_rates. repeat match goal with |- _ /\ _ => split end.
  - intros rates date d code value H Hd Hc.
    apply extract_loop_wanted in H; [|constructor].
    unfold codes_wanted in H. rewrite Forall_forall in H.
    specialize (H _ Hd). cbn [snd] in H. rewrite Forall_forall in H.
    exact (H _ Hc).
  - apply extract_rates_skips_absent.
  - apply extract_loop_skip.
  - intros H. apply extract_loop_absent.
    eapply Forall_impl; [|exact H]. now intros entry ->.
  - intros H.
    destruct (extract_loop_records (currencies self) H (rates := []))
      as (rates & Hr & _); [constructor|].
    now exists rates.
Qed.

Lemma pipeline_on_records (self : ExchangeRateFetcher)
    (days_arg : option Z) (w : world) :
  let n := Z.to_nat (requested self days_arg) in
  Forall (fun r => fails r \/ exists j, succeeds r j) (batch E w n) ->
  Forall settles (batch E w n)
  /\ exists rates,
    extract_rates self (map value_of (batch E w n)) = Ok rates
    /\ forall date,
         In date (map fst rates) <->
         exists r j,
           In r (batch E w n) /\ succeeds r j /\ getitem j "date" = Ok date.
Proof.
  intros n Hbatch.
  assert (Hs : Forall settles (batch E w n)).
  { eapply Forall_impl; [|exact Hbatch]. intros r [Hf|[j Hj]].
    - exists JNull. now apply fails_value.
    - exists j. now apply succeeds_value. }
  assert (He : Forall (fun entry => is_entry entry = true)
                 (map value_of (batch E w n))).
  { apply Forall_map. eapply Forall_impl; [|exact Hbatch].
    intros r [Hf|[j Hj]].
    - apply fails_value in Hf. destruct Hf as [_ ->]. reflexivity.
    - destruct (succeeds_value Hj) as [_ ->]. destruct Hj as [_ Hrec].
      destruct j; try discriminate. exact Hrec. }
  destruct (extract_loop_records (currencies self) He (rates := []))
    as (rates & Hr & _ & Hkeys); [constructor|].
  split; [exact Hs|]. exists rates. split; [exact Hr|].
  intros date. rewrite Hkeys. cbn [map In]. rewrite Forall_forall in Hbatch.
  split.
  - intros [[]|(entry & Hin & Hrec & Hdate)].
    apply in_map_iff in Hin. destruct Hin as (r & Hv & Hin).
    destruct (Hbatch r Hin) as [Hf|[j Hj]].
    + apply fails_value in Hf. destruct Hf as [_ Hnull].
      rewrite Hnull in Hv. subst entry. discriminate.
    + exists r, j. destruct (succeeds_value Hj) as [_ Hvj].
      rewrite Hvj in Hv. subst entry. auto.
  - intros (r & j & Hin & Hj & Hdate). right. exists j.
    destruct (succeeds_value Hj) as [_ Hvj]. destruct Hj as [_ Hrec].
    repeat split; auto. rewrite <- Hvj. now apply in_map.
Qed.

(** C2.  When each fetch of a batch either fails with an
    [aiohttp.ClientError] (and so yields [None]) or brings a record,
    [fetch_last_days] returns (no exception reaches the caller), and
    [extract_rates] returns a mapping whose keys are exactly the dates of
    the records that arrived. *)
Theorem partial_failure_is_tolerated (self : ExchangeRateFetcher)
    (days_arg : option Z) (w : world) :
  let n := Z.to_nat (requested self days_arg) in
  Forall (fun r => fails r \/ exists j, succeeds r j) (batch E w n) ->
  exists data w' rates,
    fetch_last_days E self days_arg w = (Ok data, w')
    /\ extract_rates self data = Ok rates
    /\ forall date,
         In date (map fst rates) <->
         exists r j,
           In r (batch E w n) /\ succeeds r j /\ getitem j "date" = Ok date.
Proof.
  intros n Hbatch. rewrite fetch_last_days_requested.
  destruct (pipeline_on_records self days_arg w Hbatch)
    as (Hs & rates & Hr & Hkeys).
  eexists _, _, rates. split; [apply fetch_last_days_settles; exact Hs|].
  split; [exact Hr | exact Hkeys].
Qed.

(** C4.  For a day count from 1 to 10, [fetch_last_days] sends exactly that
    many GETs, all of them before the first reply is handled; the GET of
    round [i] is for the day of the clock reading of that round less [i]
    days, which is today, today-1, ... when the readings fall on one day.
    It returns exactly when every fetch has settled, with one result per
    fetch in date order, and the mapping [extract_rates] builds from them
    has no more entries than the day count. *)
Theorem fetch_last_days_fans_out (self : ExchangeRateFetcher) (d : Z)
    (w : world) :
  1 <= d <= 10 ->
  let n := Z.to_nat d in
  (exists m logs,
     snd (fetch_last_days E self (Some d) w) =
     advance m (SessionOpen :: map HttpGet (batch_urls E w n) ++ logs
                ++ [SessionClose]) w
     /\ Forall is_log logs)
  /\ Z.of_nat (List.length (batch_urls E w n)) = d
  /\ batch_urls E w n =
     map (fun i => (API_URL_prefix ++
                    format_dmY (ordinal (clock E (ticks w + i)) - Z.of_nat i))
                   %string)
         (seq 0 n)
  /\ (forall today,
        (forall i, (i < n)%nat -> ordinal (clock E (ticks w + i)) = today) ->
        batch_urls E w n =
        map (fun i => (API_URL_prefix ++ format_dmY (today - Z.of_nat i))
                      %string)
            (seq 0 n))
  /\ (forall results w',
        fetch_last_days E self (Some d) w = (Ok results, w') ->
        Forall settles (batch E w n)
        /\ results = map value_of (batch E w n)
        /\ Z.of_nat (List.length results) = d)
  /\ (Forall settles (batch E w n) ->
      exists w',
        fetch_last_days E self (Some d) w = (Ok (map value_of (batch E w n)), w'))
  /\ (forall results w' rates,
        fetch_last_days E self (Some d) w = (Ok results, w') ->
        extract_rates self results = Ok rates ->
        Z.of_nat (List.length rates) <= d).
Proof.
  intros Hd n.
  assert (Hn : Z.of_nat n = d) by (unfold n; lia).
  assert (Hret : forall results w',
             fetch_last_days E self (Some d) w = (Ok results, w') ->
             Forall settles (batch E w n)
             /\ results = map value_of (batch E w n)
             /\ Z.of_nat (List.length results) = d).
  { intros results w' H. assert (Hs := fetch_last_days_returns _ _ _ H).
    split; [exact Hs|].
    rewrite (fetch_last_days_settles self d w Hs) in H.
    inversion H; subst results. split; [reflexivity|].
    unfold batch. now rewrite !length_map, length_seq. }
  repeat match goal with |- _ /\ _ => split end.
  - apply fetch_last_days_requests.
  - unfold batch_urls. now rewrite length_map, length_seq.
  - reflexivity.
  - intros today Htoday. unfold batch_urls. apply map_ext_in.
    intros i Hi. apply in_seq in Hi. unfold API_URL, date_at.
    cbn [minus_days ordinal]. rewrite Htoday by lia. reflexivity.
  - exact Hret.
  - intros Hs. eexists. apply fetch_last_days_settles. exact Hs.
  - intros results w' rates H Hr. destruct (Hret _ _ H) as (_ & _ & Hlen).
    unfold extract_rates in Hr. apply extract_loop_length in Hr.
    simpl in Hr. lia.
Qed.

(** ** Accepted commands *)



(** C7, as amended.  [exchange] and [exchange 1] both parse to a day count
    of 1 and run the same pipeline on it: from the same state they return
    the same result after the same number of steps and record the same
    events (the same GETs, the same response), except that the audit line,
    when one is written, records the parameters of its own command: [[]]
    for the first and [['1']] for the second. *)
Theorem exchange_default_is_one_day (self : WebSocketChat) (ws : websocket)
    (w : world) :
  parse_days [] = Ok 1
  /\ parse_days ["1"%string] = Ok 1
  /\ exists r n evs (audit : list string -> list event),
       exchange_command E self ws [] w = (r, advance n (evs ++ audit []) w)
       /\ exchange_command E self ws ["1"%string] w =
          (r, advance n (evs ++ audit ["1"%string]) w)
       /\ Forall not_audit evs
       /\ ((forall params, audit params = [])
           \/ exists at_time,
                forall params,
                  audit params =
                  [FileAppend "exchange.log" (audit_line params at_time)]).
Proof.
  assert (H1 : parse_days ["1"%string] = Ok 1).
  { unfold parse_days, py_int. cbn [int_literal unsigned_literal Ascii.eqb
      Bool.eqb is_digit nat_of_ascii more_digits digit_val].
    cbv [int_literal]. simpl.
    destruct int_max_str_digits as [|[|m]]; reflexivity. }
  split; [reflexivity|]. split; [exact H1|].
  rewrite (exchange_command_accepted self ws [] w (N := 1)) by
    (reflexivity || lia).
  rewrite (exchange_command_accepted self ws ["1"%string] w H1) by lia.
  destruct (emits_fetch_last_days (fetcher self) (Some 1) w)
    as (n & evs & Hw & Hevs).
  assert (Hno : Forall not_audit evs).
  { eapply Forall_impl; [|exact Hevs]. intros []; simpl; auto. }
  destruct (fetch_last_days E (fetcher self) (Some 1) w) as [[data|e] w1];
    cbn [snd] in Hw; subst w1.
  2:{ exists (Raise e), n, evs, (fun _ => []). rewrite app_nil_r.
      repeat split; auto. }
  destruct (extract_rates (fetcher self) data) as [rates|e].
  2:{ exists (Raise e), n, evs, (fun _ => []). rewrite app_nil_r.
      repeat split; auto. }
  assert (Hsent : Forall not_audit
                    (evs ++ [WsSend (ws_id ws) (response_text rates)])).
  { apply Forall_app. split; [exact Hno | now repeat constructor]. }
  destruct (send_fault E _ (ws_id ws)) as [e|].
  { rewrite advance_advance.
    exists (Raise e), (n + 1)%nat, (evs ++ [WsSend (ws_id ws) (response_text rates)]),
      (fun _ => []).
    rewrite app_nil_r. repeat split; auto. }
  rewrite !append_audit_advance.
  destruct (open_fault E _ "exchange.log") as [e|]; rewrite !advance_advance.
  - exists (Raise e), (n + (1 + 1))%nat,
      (evs ++ [WsSend (ws_id ws) (response_text rates)]), (fun _ => []).
    rewrite !app_nil_r. repeat split; auto.
  - set (t := clock E (S (ticks (advance (n + 1)
                 (evs ++ [WsSend (ws_id ws) (response_text rates)]) w)))).
    exists (Ok tt), (n + (1 + 2))%nat,
      (evs ++ [WsSend (ws_id ws) (response_text rates)]),
      (fun params => [FileAppend "exchange.log" (audit_line params t)]).
    split; [now rewrite app_assoc|].
    split; [now rewrite <- Nat.add_assoc|].
    split; [exact Hsent|]. right. exists t. reflexivity.
Qed.

(** C8.  For every command whose day count is at most 10, when the fetches
    of the batch settle, the extraction gives [rates], the peer is still
    connected and the log file opens, [exchange_command] returns after
    recording, in this order: the events of the fetch, one
    [websocket.send] with the text made of, for each date of [rates], the
    line [Rates on {date}:] followed by one line [{currency}: {value}] per
    kept currency, all joined by newlines, and one append to
    [exchange.log] of the line that names the command, its parameters and
    the time. *)
Theorem exchange_sends_rates_then_audits (self : WebSocketChat)
    (ws : websocket) (params : list string) (N : Z) (w : world)
    (rates : list (json * rate_dict)) :
  let n := Z.to_nat N in
  let sent_at := (ticks w + (n + n))%nat in
  parse_days params = Ok N -> N <= 10 ->
  Forall settles (batch E w n) ->
  extract_rates (fetcher self) (map value_of (batch E w n)) = Ok rates ->
  send_fault E sent_at (ws_id ws) = None ->
  open_fault E (S sent_at) "exchange.log" = None ->
  exchange_command E self ws params w =
  (Ok tt,
   advance (n + n + 3)
     ((SessionOpen :: map HttpGet (batch_urls E w n) ++ batch_log E w n
       ++ [SessionClose])
      ++ [WsSend (ws_id ws)
            (join newline
               (flat_map
                  (fun dr =>
                     ("Rates on " ++ py_str (fst dr) ++ ":")%string
                     :: map (fun cv => (py_str (fst cv) ++ ": "
                                        ++ py_str (snd cv))%string)
                          (snd dr))
                  rates));
          FileAppend "exchange.log"
            ("Command 'exchange' executed with params "
             ++ repr_str_list params ++ " at "
             ++ datetime_str (clock E (S (S sent_at))) ++ newline)%string])
     w).
Proof.
  intros n sent_at Hp HN Hs Hr Hsend Hopen.
  rewrite (exchange_command_accepted self ws params w Hp HN).
  rewrite (fetch_last_days_settles (fetcher self) N w Hs). fold n.
  rewrite Hr. cbn [advance ticks]. fold sent_at. rewrite Hsend.
  rewrite append_audit_advance. cbn [advance ticks].
  replace (ticks w + (n + n) + 1)%nat with (S sent_at)
    by (unfold sent_at; lia).
  rewrite Hopen. unfold advance. cbn [clients ticks trace]. f_equal. f_equal.
  - lia.
  - rewrite <- !app_assoc. reflexivity.
Qed.

(** ** The handler *)

Lemma emits_dispatch (self : WebSocketChat) (ws : websocket)
    (message : string) :
  emits (fun _ => True) (dispatch E self ws message).
Proof.
  unfold dispatch. destruct (split message) as [|command params].
  - apply emits_raise.
  - destruct (String.eqb command "exchange");
      [apply emits_exchange_command | apply emits_ret].
Qed.

Lemma emits_receive (self : WebSocketChat) (ws : websocket)
    (messages : list string) :
  emits (fun _ => True) (receive E self ws messages).
Proof.
  induction messages as [|message rest IH]; simpl.
  - destruct (ending ws); [apply emits_raise | apply emits_ret].
  - apply emits_bind; [apply emits_dispatch | intros _; exact IH].
Qed.

Lemma emits_clients {A : Type} (P : event -> Prop) (m : M A) (w : world) :
  emits P m -> clients (snd (m w)) = clients w.
Proof.
  intros H. destruct (H w) as (n & evs & -> & _). reflexivity.
Qed.

Lemma registered_member (ws : websocket) (w : world) :
  set_mem Nat.eq_dec (ws_id ws) (clients (register ws w)) = true.
Proof.
  apply set_mem_correct2. cbn [register clients].
  apply set_add_intro2. reflexivity.
Qed.

(** The handler in terms of what the loop over the frames does. *)
Lemma handler_unfold (self : WebSocketChat) (ws : websocket) (path : string)
    (w : world) :
  handler E self ws path w =
  match receive E self ws (inbox ws) (register ws w) with
  | (Ok u, w1) => (Ok u, unregister ws w1)
  | (Raise e, w1) =>
      if is_ConnectionClosed e
      then (Ok tt,
            unregister ws
              (advance 0 [Print ("Connection closed: " ++ exn_msg e)%string]
                 w1))
      else (Raise e, unregister ws w1)
  end.
Proof.
  unfold handler, bind at 1. cbn [clients_add]. fold (register ws w).
  unfold finally, try_except.
  assert (Hc := emits_clients (register ws w)
                  (emits_receive self ws (inbox ws))).
  destruct (receive E self ws (inbox ws) (register ws w)) as [[u|e] w1];
    cbn [snd] in Hc.
  all: assert (Hm : set_mem Nat.eq_dec (ws_id ws) (clients w1) = true)
    by (rewrite Hc; apply registered_member).
  - unfold clients_remove. rewrite Hm. reflexivity.
  - destruct (is_ConnectionClosed e).
    + rewrite emit_advance. unfold clients_remove. cbn [advance clients].
      rewrite Hm. reflexivity.
    + unfold clients_remove. rewrite Hm. reflexivity.
Qed.


Lemma py_int_raises (p : string) (e : exn) :
  py_int p = Raise e -> is_ValueError e = true /\ is_ConnectionClosed e = false.
Proof.
  unfold py_int. destruct (int_literal p) as [[v n]|].
  - destruct (_ && _)%bool; [|discriminate].
    intros H. inversion H; subst. now split.
  - intros H. inversion H; subst. now split.
Qed.

(** C10.  The handling of a line is not total.  A line without any word
    (empty, or white space only) makes the unpacking of [message.split()]
    raise [ValueError]; a line [exchange p ...] whose [p] is not an integer
    literal makes [int(params[0])] raise [ValueError].  In both cases the
    exception is not caught: the handler is left with it, after removing
    the connection from [clients], without sending anything and without
    reading the frames that follow.  Such lines exist: the empty line, a
    line of blanks, and [exchange abc]. *)
Theorem handler_raises_on_bad_line (self : WebSocketChat) (ws : websocket)
    (path : string) (w : world) (message : string) (rest : list string) :
  inbox ws = message :: rest ->
  (split message = [] ->
   handler E self ws path w = (Raise unpack_error, unregister ws (register ws w))
   /\ is_ValueError unpack_error = true)
  /\ (forall p more e,
        split message = "exchange"%string :: p :: more ->
        py_int p = Raise e ->
        handler E self ws path w = (Raise e, unregister ws (register ws w))
        /\ is_ValueError e = true)
  /\ trace (unregister ws (register ws w)) = trace w
  /\ split EmptyString = []
  /\ split "   " = []
  /\ split "exchange abc" = ["exchange"%string; "abc"%string]
  /\ py_int "abc" = Raise (invalid_literal "abc").
Proof.
  intros Hinbox. rewrite handler_unfold, Hinbox. cbn [receive].
  unfold bind at 1, dispatch.
  repeat match goal with |- _ /\ _ => split end; try reflexivity.
  - intros ->. split; reflexivity.
  - intros p more e -> Hp.
    change (String.eqb "exchange" "exchange") with true. cbn iota.
    unfold exchange_command, lift, parse_days. rewrite Hp.
    unfold bind. cbv beta iota.
    destruct (py_int_raises _ Hp) as [Hv ->]. split; [reflexivity | exact Hv].
Qed.

End Properties.

(** * Further properties *)

Section Further.
Context {NUM : PyNumber} {TXT : PyText}.
Variable E : env.

(** ** The mapping [extract_rates] builds *)

Lemma dict_set_fst {V : Type} (k : json) (v : V) (d : list (json * V)) :
  map fst (dict_set key_eqb k v d) =
  if existsb (fun kv => key_eqb (fst kv) k) d
  then map fst d
  else map fst d ++ [k].
Proof.
  induction d as [|[k' v'] rest IH]; [reflexivity|].
  cbn [dict_set existsb fst]. destruct (key_eqb k' k); [reflexivity|].
  cbn [map fst orb]. rewrite IH.
  now destruct (existsb _ rest).
Qed.

Lemma dict_set_new {V : Type} (k : json) (v : V) (d : list (json * V)) :
  Forall (fun kv => key_eqb (fst kv) k = false) d ->
  dict_set key_eqb k v d = d ++ [(k, v)].
Proof.
  induction 1 as [|[k' v'] rest Hk _ IH]; [reflexivity|].
  cbn [dict_set app]. cbn [fst] in Hk. now rewrite Hk, IH.
Qed.

Lemma dict_set_distinct {V : Type} (k : json) (v : V) (d : list (json * V)) :
  distinct_keys d -> distinct_keys (dict_set key_eqb k v d).
Proof.
  unfold distinct_keys.
  induction 1 as [|[k' v'] rest Hk Hrest IH]; cbn [dict_set].
  - repeat constructor.
  - destruct (key_eqb k' k) eqn:Hkk.
    + constructor; [exact Hk | exact Hrest].
    + constructor; [|exact IH].
      cbn [fst] in Hk |- *.
      assert (Hkeys : Forall (fun k2 => key_eqb k' k2 = false)
                        (map fst (dict_set key_eqb k v rest))).
      { rewrite dict_set_fst.
        destruct (existsb _ rest).
        - rewrite Forall_map. exact Hk.
        - apply Forall_app. split.
          + rewrite Forall_map. exact Hk.
          + repeat constructor. exact Hkk. }
      now rewrite Forall_map in Hkeys.
Qed.

Lemma comprehension_distinct (wanted : list string) (rates : list json) :
  forall acc d,
    comprehension wanted rates acc = Ok d ->
    distinct_keys acc -> distinct_keys d.
Proof.
  induction rates as [|rate rest IH]; intros acc d H Hacc; simpl in H.
  - now inversion H; subst.
  - destruct (getitem rate "currency") as [code|e]; [|discriminate].
    destruct (in_currencies code wanted).
    + destruct (getitem rate "saleRate") as [value|e]; [|discriminate].
      eapply IH; [exact H|]. now apply dict_set_distinct.
    + eapply IH; eauto.
Qed.

Lemma add_entry_distinct (wanted : list string) (entry : json)
    (rates rates' : list (json * rate_dict)) :
  add_entry wanted entry rates = Ok rates' ->
  distinct_keys rates /\ Forall (fun dr => distinct_keys (snd dr)) rates ->
  distinct_keys rates' /\ Forall (fun dr => distinct_keys (snd dr)) rates'.
Proof.
  unfold add_entry. intros H [Hk Hv].
  destruct (getitem entry "date") as [date|e]; [|discriminate].
  destruct (getitem entry "exchangeRate") as [rl|e]; [|discriminate].
  destruct (py_iter rl) as [items|e]; [|discriminate].
  destruct (comprehension wanted items []) as [d|e] eqn:Hd; [|discriminate].
  destruct (hashable date); [|discriminate].
  inversion H; subst. split.
  - now apply dict_set_distinct.
  - apply dict_set_values; [exact Hv|].
    eapply comprehension_distinct; [exact Hd | constructor].
Qed.

Lemma extract_loop_distinct (wanted : list string) (data : list json) :
  forall rates rates',
    extract_loop wanted data rates = Ok rates' ->
    distinct_keys rates /\ Forall (fun dr => distinct_keys (snd dr)) rates ->
    distinct_keys rates' /\ Forall (fun dr => distinct_keys (snd dr)) rates'.
Proof.
  induction data as [|entry rest IH]; intros rates rates' H Hr; simpl in H.
  - now inversion H; subst.
  - destruct (truthy entry).
    + destruct (add_entry wanted entry rates) as [r1|e] eqn:Hadd;
        [|discriminate].
      eapply IH; [exact H|]. eapply add_entry_distinct; eauto.
    + eapply IH; eauto.
Qed.

(** X1.  In the mapping [extract_rates] returns no date equals a later one,
    and in the rates of each date no currency code equals a later one,
    whatever the entries: a date fetched twice and a currency listed twice
    each end up once. *)
Theorem extract_rates_keys_are_distinct (self : ExchangeRateFetcher)
    (data : list json) (rates : list (json * rate_dict)) :
  extract_rates self data = Ok rates ->
  distinct_keys rates /\ Forall (fun dr => distinct_keys (snd dr)) rates.
Proof.
  intros H. eapply extract_loop_distinct; [exact H|].
  split; constructor.
Qed.

Lemma extract_loop_app (wanted : list string) (a b : list json) :
  forall rates,
    extract_loop wanted (a ++ b) rates =
    match extract_loop wanted a rates with
    | Ok rates' => extract_loop wanted b rates'
    | Raise e => Raise e
    end.
Proof.
  induction a as [|entry rest IH]; intros rates; [reflexivity|].
  cbn [app extract_loop]. destruct (truthy entry); [|apply IH].
  destruct (add_entry wanted entry rates); [apply IH | reflexivity].
Qed.

Lemma comprehension_app (wanted : list string) (a b : list json) :
  forall acc,
    comprehension wanted (a ++ b) acc =
    match comprehension wanted a acc with
    | Ok acc' => comprehension wanted b acc'
    | Raise e => Raise e
    end.
Proof.
  induction a as [|rate rest IH]; intros acc; [reflexivity|].
  cbn [app comprehension].
  destruct (getitem rate "currency") as [code|e]; [|reflexivity].
  destruct (in_currencies code wanted); [|apply IH].
  destruct (getitem rate "saleRate"); [apply IH | reflexivity].
Qed.

Lemma lookup_key_set {V : Type} (s : string) (v : V) (d : list (json * V)) :
  lookup_key (JStr s) (dict_set key_eqb (JStr s) v d) = Some v.
Proof.
  induction d as [|[k' v'] rest IH]; cbn [dict_set lookup_key].
  - cbn [key_eqb]. now rewrite String.eqb_refl.
  - destruct (key_eqb k' (JStr s)) eqn:Hk; cbn [lookup_key]; now rewrite Hk.
Qed.

Lemma lookup_key_set_other {V : Type} (s t : string) (v : V)
    (d : list (json * V)) :
  s <> t ->
  lookup_key (JStr s) (dict_set key_eqb (JStr t) v d) = lookup_key (JStr s) d.
Proof.
  intros Hne. induction d as [|[k' v'] rest IH]; cbn [dict_set lookup_key].
  - cbn [key_eqb]. destruct (String.eqb_spec t s); [congruence | reflexivity].
  - destruct (key_eqb k' (JStr t)) eqn:Hk; cbn [lookup_key].
    + destruct k'; cbn [key_eqb] in Hk |- *; try discriminate.
      apply String.eqb_eq in Hk. subst s0.
      destruct (String.eqb_spec t s); [congruence | reflexivity].
    + now rewrite IH.
Qed.

(** What a record contributes: its date and the dict of its rates. *)
Lemma add_entry_of_record (wanted : list string) (entry : json)
    (rates : list (json * rate_dict)) :
  is_record entry = true ->
  exists s items d,
    date_of entry = Some s
    /\ getitem entry "exchangeRate" = Ok (JArr items)
    /\ comprehension wanted items [] = Ok d
    /\ add_entry wanted entry rates = Ok (dict_set key_eqb (JStr s) d rates).
Proof.
  destruct entry as [| | | | |members]; try discriminate.
  unfold add_entry, date_of. simpl.
  destruct (assoc "date" members) as [date|]; [|discriminate].
  destruct date; try discriminate.
  destruct (assoc "exchangeRate" members) as [rl|]; [|discriminate].
  destruct rl; try discriminate. intros Hrates.
  destruct (comprehension_total wanted items Hrates []) as [d Hd].
  exists s, items, d. simpl. now rewrite Hd.
Qed.

Lemma extract_loop_keeps_other (wanted : list string) (s : string)
    (data : list json) :
  Forall (fun entry => is_entry entry = true) data ->
  Forall (fun entry => date_of entry <> Some s) data ->
  forall rates,
    exists rates',
      extract_loop wanted data rates = Ok rates'
      /\ lookup_key (JStr s) rates' = lookup_key (JStr s) rates.
Proof.
  induction 1 as [|entry rest Hentry _ IH]; intros Hother rates.
  - exists rates. now split.
  - inversion Hother as [|? ? Hne Hrest]; subst.
    destruct entry as [| | | | |members]; try discriminate.
    + apply (IH Hrest).
    + cbn [is_entry] in Hentry.
      destruct (add_entry_of_record wanted (JObj members) rates Hentry)
        as (t & items & d & Hdate & _ & _ & Hadd).
      cbn [extract_loop]. rewrite (record_truthy _ Hentry), Hadd.
      destruct (IH Hrest (dict_set key_eqb (JStr t) d rates))
        as (r & Hr & Hlook).
      exists r. split; [exact Hr|]. rewrite Hlook.
      apply lookup_key_set_other. congruence.
Qed.

(** X2.  The last record of a date decides the rates of that date: when the
    entries are records and [None]s, and no record after [entry] carries its
    date, the mapping holds under that date the rates kept from [entry]. *)
Theorem extract_rates_last_record_wins (self : ExchangeRateFetcher)
    (before after : list json) (entry : json) :
  Forall (fun e => is_entry e = true) before ->
  is_record entry = true ->
  Forall (fun e => is_entry e = true) after ->
  Forall (fun e => date_of e <> date_of entry) after ->
  exists s items d rates,
    date_of entry = Some s
    /\ getitem entry "exchangeRate" = Ok (JArr items)
    /\ comprehension (currencies self) items [] = Ok d
    /\ extract_rates self (before ++ entry :: after) = Ok rates
    /\ lookup_key (JStr s) rates = Some d.
Proof.
  intros Hb He Ha Hother. unfold extract_rates.
  destruct (extract_loop_records (currencies self) Hb (rates := []))
    as (r0 & Hr0 & _); [constructor|].
  destruct (add_entry_of_record (currencies self) entry r0 He)
    as (s & items & d & Hdate & Hitems & Hd & Hadd).
  rewrite Hdate in Hother.
  destruct (extract_loop_keeps_other (currencies self) Ha Hother
              (dict_set key_eqb (JStr s) d r0)) as (r & Hr & Hlook).
  exists s, items, d, r. repeat split; auto.
  - rewrite extract_loop_app, Hr0. cbn [extract_loop].
    rewrite (record_truthy _ He), Hadd. exact Hr.
  - rewrite Hlook. apply lookup_key_set.
Qed.

Lemma comprehension_quotes (wanted : list string) (items : list json) :
  forall (quotes : list (string * json)) (acc : rate_dict),
    map quote_of items = map Some quotes ->
    NoDup (map fst quotes) ->
    (forall q, In q quotes ->
       Forall (fun kv => key_eqb (fst kv) (JStr (fst q)) = false) acc) ->
    comprehension wanted items acc = Ok (acc ++ kept wanted quotes).
Proof.
  induction items as [|rate rest IH]; intros quotes acc Hq Hnd Hacc.
  - destruct quotes; [|discriminate]. cbn. now rewrite app_nil_r.
  - destruct quotes as [|[code value] quotes]; [discriminate|].
    cbn [map] in Hq. inversion Hq as [[Hrate Hrest]].
    cbn [map fst] in Hnd. inversion Hnd as [|? ? Hfresh Hnd']; subst.
    destruct rate as [| | | | |members]; try discriminate.
    cbn [quote_of] in Hrate. cbn [comprehension getitem].
    destruct (assoc "currency" members) as [c|]; [|discriminate].
    destruct c; try discriminate.
    destruct (assoc "saleRate" members) as [v|]; [|discriminate].
    inversion Hrate; subst. unfold kept. cbn [filter in_currencies].
    change (requested_code wanted (code, value))
      with (existsb (String.eqb code) wanted).
    destruct (existsb (String.eqb code) wanted) eqn:Hw.
    + rewrite dict_set_new by (apply (Hacc (code, value)); now left).
      rewrite (IH quotes); [| exact Hrest | exact Hnd' |].
      * cbn [map fst snd]. now rewrite <- app_assoc.
      * intros q Hin. apply Forall_app. split.
        -- apply Hacc. now right.
        -- repeat constructor. cbn [fst key_eqb].
           destruct (String.eqb_spec code (fst q)) as [Heq|]; [|reflexivity].
           exfalso. apply Hfresh. rewrite Heq. now apply in_map.
    + apply IH; [exact Hrest | exact Hnd' |].
      intros q Hin. apply Hacc. now right.
Qed.

(** X3.  From a record whose rate objects name pairwise different
    currencies, [extract_rates] keeps exactly the quotes of the requested
    currencies, in the order the record lists them, under the record's
    date. *)
Theorem extract_rates_filters_in_order (self : ExchangeRateFetcher)
    (date : string) (items : list json) (quotes : list (string * json))
    (members : list (string * json)) :
  assoc "date" members = Some (JStr date) ->
  assoc "exchangeRate" members = Some (JArr items) ->
  map quote_of items = map Some quotes ->
  NoDup (map fst quotes) ->
  extract_rates self [JObj members] =
  Ok [(JStr date, kept (currencies self) quotes)].
Proof.
  intros Hdate Hitems Hq Hnd. unfold extract_rates.
  cbn [extract_loop truthy]. destruct members as [|m ms]; [discriminate|].
  unfold add_entry. cbn [getitem]. rewrite Hdate, Hitems. cbn [py_iter].
  rewrite (comprehension_quotes (currencies self) items quotes (acc := [])
             Hq Hnd) by (intros; constructor).
  reflexivity.
Qed.

(** ** Missing keys *)

Lemma is_rate_is_rate_for (wanted : list string) (rate : json) :
  is_rate rate = true -> is_rate_for wanted rate = true.
Proof.
  destruct rate as [| | | | |members]; try discriminate. cbn.
  destruct (assoc "currency" members) as [[]|]; try discriminate.
  destruct (assoc "saleRate" members); [|discriminate].
  now destruct (existsb _ wanted).
Qed.

Lemma comprehension_total_for (wanted : list string) (rates : list json) :
  forallb (is_rate_for wanted) rates = true ->
  forall acc, exists d, comprehension wanted rates acc = Ok d.
Proof.
  induction rates as [|rate rest IH]; intros H acc; simpl.
  - now exists acc.
  - simpl in H. apply andb_true_iff in H. destruct H as [Hrate Hrest].
    destruct rate as [| | | | |members]; try discriminate.
    cbn [is_rate_for] in Hrate. cbn [getitem].
    destruct (assoc "currency" members) as [code|]; [|discriminate].
    destruct code; try discriminate. cbn [in_currencies].
    destruct (existsb (String.eqb s) wanted); [|now apply IH].
    destruct (assoc "saleRate" members) as [value|]; [|discriminate].
    now apply IH.
Qed.

Lemma extract_loop_total_for (wanted : list string) (data : list json) :
  Forall (fun entry => is_entry_for wanted entry = true) data ->
  forall rates, exists rates', extract_loop wanted data rates = Ok rates'.
Proof.
  induction 1 as [|entry rest Hentry _ IH]; intros rates.
  - now exists rates.
  - destruct entry as [| | | | |members]; try discriminate.
    + apply IH.
    + cbn [is_entry_for] in Hentry. cbn [extract_loop truthy].
      destruct members as [|m ms]; [discriminate|].
      unfold add_entry. cbn [getitem].
      destruct (assoc "date" (m :: ms)) as [date|]; [|discriminate].
      destruct date; try discriminate.
      destruct (assoc "exchangeRate" (m :: ms)) as [rl|]; [|discriminate].
      destruct rl; try discriminate. cbn [py_iter].
      destruct (comprehension_total_for wanted items Hentry []) as [d ->].
      cbn [hashable]. apply IH.
Qed.

(** X4.  A requested currency without [saleRate] stops the extraction: when
    the entries before are records or [None], and in the [exchangeRate] of
    an entry the rate objects before the faulty one are complete,
    [extract_rates] raises [KeyError('saleRate')] and returns none of the
    dates it had gathered, whatever follows. *)
Theorem extract_rates_requires_sale_rate (self : ExchangeRateFetcher)
    (before after : list json) (members bad : list (string * json))
    (date : json) (good rest : list json) (code : string) :
  Forall (fun e => is_entry e = true) before ->
  assoc "date" members = Some date ->
  assoc "exchangeRate" members = Some (JArr (good ++ JObj bad :: rest)) ->
  forallb is_rate good = true ->
  assoc "currency" bad = Some (JStr code) ->
  In code (currencies self) ->
  assoc "saleRate" bad = None ->
  extract_rates self (before ++ JObj members :: after) =
  Raise (key_error "saleRate").
Proof.
  intros Hb Hdate Hrl Hgood Hcode Hin Hsale. unfold extract_rates.
  destruct (extract_loop_records (currencies self) Hb (rates := []))
    as (r0 & Hr0 & _); [constructor|].
  rewrite extract_loop_app, Hr0. cbn [extract_loop truthy].
  destruct members as [|m ms]; [discriminate|].
  unfold add_entry. cbn [getitem]. rewrite Hdate, Hrl. cbn [py_iter].
  rewrite comprehension_app.
  destruct (comprehension_total (currencies self) good Hgood []) as [d ->].
  cbn [comprehension getitem]. rewrite Hcode. cbn [in_currencies].
  assert (Hw : existsb (String.eqb code) (currencies self) = true).
  { apply existsb_exists. exists code. split; [exact Hin|].
    apply String.eqb_refl. }
  now rewrite Hw, Hsale.
Qed.

(** X5.  [saleRate] is read for requested currencies only: on entries that
    are [None] or objects with a string [date] and a list [exchangeRate] of
    rate objects that hold a string [currency], and a [saleRate] where the
    currency is requested, [extract_rates] returns a mapping. *)
Theorem extract_rates_reads_requested_only (self : ExchangeRateFetcher)
    (data : list json) :
  Forall (fun entry => is_entry_for (currencies self) entry = true) data ->
  exists rates, extract_rates self data = Ok rates.
Proof.
  intros H. apply (extract_loop_total_for (currencies self) H).
Qed.

(** X6.  An entry that is a non-empty object without [date], or with
    [date] and without [exchangeRate], stops the extraction with the
    [KeyError] of the missing key, when the entries before it are records
    or [None]. *)
Theorem extract_rates_requires_date_and_rates (self : ExchangeRateFetcher)
    (before after : list json) (m : string * json)
    (ms : list (string * json)) :
  Forall (fun e => is_entry e = true) before ->
  (assoc "date" (m :: ms) = None ->
   extract_rates self (before ++ JObj (m :: ms) :: after) =
   Raise (key_error "date"))
  /\ (forall date,
        assoc "date" (m :: ms) = Some date ->
        assoc "exchangeRate" (m :: ms) = None ->
        extract_rates self (before ++ JObj (m :: ms) :: after) =
        Raise (key_error "exchangeRate")).
Proof.
  intros Hb. unfold extract_rates.
  destruct (extract_loop_records (currencies self) Hb (rates := []))
    as (r0 & Hr0 & _); [constructor|].
  rewrite extract_loop_app, Hr0. cbn [extract_loop truthy].
  unfold add_entry. cbn [getitem]. split.
  - now intros ->.
  - now intros date -> ->.
Qed.

(** ** Frames the handler passes over *)

Lemma receive_same_connection (self : WebSocketChat) (ws : websocket)
    (inbox' : list string) (frames : list string) :
  receive E self (with_inbox ws inbox') frames = receive E self ws frames.
Proof.
  induction frames as [|message rest IH]; [reflexivity|].
  cbn [receive]. rewrite IH. reflexivity.
Qed.

Lemma receive_passes_over (self : WebSocketChat) (ws : websocket)
    (frames : list string) :
  forall w,
    receive E self ws frames w =
    receive E self ws (filter (fun m => negb (passed_over m)) frames) w.
Proof.
  induction frames as [|message rest IH]; intros w; [reflexivity|].
  cbn [filter]. unfold passed_over at 1.
  destruct (split message) as [|command params] eqn:Hs.
  - cbn [negb receive]. unfold bind, dispatch. now rewrite Hs.
  - destruct (String.eqb command "exchange") eqn:Hc; cbn [negb receive].
    + unfold bind. destruct (dispatch E self ws message w) as [[u|e] w1];
        [apply IH | reflexivity].
    + unfold bind at 1, dispatch. rewrite Hs, Hc. apply IH.
Qed.

(** X7.  Frames whose first word is not [exchange] leave no mark: the
    handler does on a connection exactly what it does on the connection
    with those frames removed (same result, same events, same [clients]).
    The word is compared as it is, so [Exchange 1] is such a frame. *)
Theorem handler_passes_over_other_commands (self : WebSocketChat)
    (ws : websocket) (path : string) (w : world) :
  handler E self ws path w =
  handler E self
    (with_inbox ws (filter (fun m => negb (passed_over m)) (inbox ws)))
    path w
  /\ passed_over "Exchange 1" = true
  /\ passed_over "exchange 1" = false.
Proof.
  split; [|split; reflexivity].
  rewrite !handler_unfold. cbn [with_inbox inbox].
  rewrite receive_same_connection.
  change (register (with_inbox ws _) w) with (register ws w).
  rewrite <- receive_passes_over.
  destruct (receive E self ws (inbox ws) (register ws w)) as [[u|e] w1];
    reflexivity.
Qed.

(** ** Commands *)

(** X8.  A command acts on its parameters through the day count they parse
    to, and through nothing else but the audit line: two parameter lists
    that parse to the same day count give, from the same state, the same
    result after the same steps and the same events (the same GETs, the
    same message), each followed by the audit line of its own parameters
    when one is written.  So [exchange 3], [exchange +3], [exchange 03] and
    [exchange 3 now] are answered alike. *)
Theorem exchange_depends_on_day_count (self : WebSocketChat) (ws : websocket)
    (p1 p2 : list string) (N : Z) (w : world) :
  parse_days p1 = Ok N -> parse_days p2 = Ok N ->
  exists r n evs (audit : list string -> list event),
    exchange_command E self ws p1 w = (r, advance n (evs ++ audit p1) w)
    /\ exchange_command E self ws p2 w = (r, advance n (evs ++ audit p2) w)
    /\ Forall not_audit evs
    /\ ((forall params, audit params = [])
        \/ exists at_time,
             forall params,
               audit params =
               [FileAppend "exchange.log" (audit_line params at_time)]).
Proof.
  intros H1 H2. destruct (Z_lt_ge_dec 10 N) as [HN|HN].
  { exists (match send_fault E (ticks w) (ws_id ws) with
            | None => Ok tt
            | Some e => Raise e
            end), 1%nat, [WsSend (ws_id ws) max_days_error], (fun _ => []).
    unfold exchange_command, bind, lift. rewrite H1, H2.
    apply Z.ltb_lt in HN. rewrite HN. rewrite ws_send_advance, app_nil_r.
    repeat split; auto. repeat constructor. }
  rewrite (exchange_command_accepted E self ws p1 w H1) by lia.
  rewrite (exchange_command_accepted E self ws p2 w H2) by lia.
  destruct (emits_fetch_last_days E (fetcher self) (Some N) w)
    as (n & evs & Hw & Hevs).
  assert (Hno : Forall not_audit evs).
  { eapply Forall_impl; [|exact Hevs]. intros []; simpl; auto. }
  destruct (fetch_last_days E (fetcher self) (Some N) w) as [[data|e] w1];
    cbn [snd] in Hw; subst w1.
  2:{ exists (Raise e), n, evs, (fun _ => []). rewrite app_nil_r.
      repeat split; auto. }
  destruct (extract_rates (fetcher self) data) as [rates|e].
  2:{ exists (Raise e), n, evs, (fun _ => []). rewrite app_nil_r.
      repeat split; auto. }
  assert (Hsent : Forall not_audit
                    (evs ++ [WsSend (ws_id ws) (response_text rates)])).
  { apply Forall_app. split; [exact Hno | now repeat constructor]. }
  destruct (send_fault E _ (ws_id ws)) as [e|].
  { rewrite advance_advance.
    exists (Raise e), (n + 1)%nat,
      (evs ++ [WsSend (ws_id ws) (response_text rates)]), (fun _ => []).
    rewrite app_nil_r. repeat split; auto. }
  rewrite !append_audit_advance.
  destruct (open_fault E _ "exchange.log") as [e|]; rewrite !advance_advance.
  - exists (Raise e), (n + (1 + 1))%nat,
      (evs ++ [WsSend (ws_id ws) (response_text rates)]), (fun _ => []).
    rewrite !app_nil_r. repeat split; auto.
  - set (t := clock E (S (ticks (advance (n + 1)
                 (evs ++ [WsSend (ws_id ws) (response_text rates)]) w)))).
    exists (Ok tt), (n + (1 + 2))%nat,
      (evs ++ [WsSend (ws_id ws) (response_text rates)]),
      (fun params => [FileAppend "exchange.log" (audit_line params t)]).
    split;
      [f_equal; f_equal; solve [lia | now rewrite <- ?app_assoc]|].
    split;
      [f_equal; f_equal; solve [lia | now rewrite <- ?app_assoc]|].
    split; [exact Hsent|]. right. exists t. reflexivity.
Qed.

(** X9.  When the peer is gone by the time the answer is sent, the command
    writes no audit line and the handler does not fail: the
    [ConnectionClosed] of [websocket.send] is printed, the connection is
    removed from [clients], the frames that follow are not read, and the
    handler returns normally. *)
Theorem handler_survives_lost_peer (self : WebSocketChat) (ws : websocket)
    (path : string) (w : world) (message : string)
    (params rest : list string) (N : Z) (rates : list (json * rate_dict))
    (e : exn) :
  let w1 := register ws w in
  let n := Z.to_nat N in
  inbox ws = message :: rest ->
  split message = "exchange"%string :: params ->
  parse_days params = Ok N -> N <= 10 ->
  Forall settles (batch E w1 n) ->
  extract_rates (fetcher self) (map value_of (batch E w1 n)) = Ok rates ->
  send_fault E (ticks w + (n + n)) (ws_id ws) = Some e ->
  is_ConnectionClosed e = true ->
  handler E self ws path w =
  (Ok tt,
   unregister ws
     (advance (n + n + 1)
        ((SessionOpen :: map HttpGet (batch_urls E w1 n) ++ batch_log E w1 n
          ++ [SessionClose])
         ++ [WsSend (ws_id ws) (response_text rates);
             Print ("Connection closed: " ++ exn_msg e)%string])
        w1)).
Proof.
  intros w1 n Hinbox Hsplit Hp HN Hs Hr Hsend Hclosed.
  rewrite handler_unfold, Hinbox. fold w1. cbn [receive].
  unfold bind at 1, dispatch. rewrite Hsplit.
  change (String.eqb "exchange" "exchange") with true. cbn iota.
  rewrite (exchange_command_accepted E self ws params w1 Hp HN).
  rewrite (fetch_last_days_settles E (fetcher self) N w1 Hs). fold n.
  rewrite Hr. cbn [advance ticks]. change (ticks w1) with (ticks w).
  rewrite Hsend, Hclosed. rewrite !advance_advance.
  repeat f_equal; solve [lia | now rewrite <- ?app_assoc].
Qed.

Lemma settle_raises (order : list (nat * pending)) :
  forall w e w',
    settle order w = (Raise e, w') ->
    Exists (fun ip => raises (reply_of (snd ip)) e) order.
Proof.
  induction order as [|[i p] rest IH]; intros w e w' H; [discriminate|].
  cbn [settle] in H. unfold bind at 1 in H. rewrite resume_advance in H.
  destruct (settled (reply_of p)) as [j|e0] eqn:Hp.
  - unfold bind at 1 in H.
    destruct (settle rest _) as [[d|e1] w1] eqn:Hrest; [discriminate|].
    inversion H; subst. right. eapply IH. exact Hrest.
  - inversion H; subst. left. exact Hp.
Qed.

Lemma fetch_last_days_raises (self : ExchangeRateFetcher) (d : Z)
    (w w' : world) (e : exn) :
  fetch_last_days E self (Some d) w = (Raise e, w') ->
  exists r, In r (batch E w (Z.to_nat d)) /\ raises r e.
Proof.
  rewrite fetch_last_days_unfold. unfold gather, bind at 1.
  rewrite start_all_advance. unfold bind at 1.
  cbn [advance ticks]. rewrite batch_from_tasks.
  destruct (settle _ _) as [[done|e1] w1] eqn:Hs; [discriminate|].
  intros H. inversion H; subst. apply settle_raises in Hs.
  apply Exists_exists in Hs. destruct Hs as ([i p] & Hin & Hp).
  apply (Permutation_in _ (by_completion_perm _)) in Hin.
  exists (reply_of p). split; [|exact Hp].
  rewrite <- batch_replies.
  apply (in_map reply_of). rewrite <- (number_from_snd (batch_pendings E w _) 0).
  change p with (snd (i, p)). now apply in_map.
Qed.

Lemma raises_not_client (r : reply) (e : exn) :
  raises r e -> is_ClientError e = false.
Proof.
  unfold raises, settled. destruct (read_response _) as [j|e0]; [discriminate|].
  destruct (is_ClientError e0) eqn:Hc; [discriminate|].
  intros H. now inversion H; subst.
Qed.

(** An unsettled fetch makes [fetch_last_days] raise, after all the GETs and
    with the session closed. *)
Lemma fetch_last_days_unsettled (self : ExchangeRateFetcher) (d : Z)
    (w : world) (r0 : reply) (e0 : exn) :
  let n := Z.to_nat d in
  In r0 (batch E w n) -> raises r0 e0 ->
  exists e r m logs,
    In r (batch E w n) /\ raises r e /\ is_ClientError e = false
    /\ fetch_last_days E self (Some d) w =
       (Raise e,
        advance m (SessionOpen :: map HttpGet (batch_urls E w n) ++ logs
                   ++ [SessionClose]) w)
    /\ Forall is_log logs.
Proof.
  intros n Hin Hraise.
  destruct (fetch_last_days_requests E self d w) as (m & logs & Hw & Hlogs).
  fold n in Hw.
  destruct (fetch_last_days E self (Some d) w) as [[data|e] w1] eqn:Hf.
  - apply fetch_last_days_returns in Hf. rewrite Forall_forall in Hf.
    destruct (Hf r0 Hin) as [j Hj]. unfold raises in Hraise. congruence.
  - destruct (fetch_last_days_raises _ _ _ Hf) as (r & Hr & He).
    cbn [snd] in Hw. subst w1.
    exists e, r, m, logs. repeat split; auto.
    eapply raises_not_client; eauto.
Qed.

(** X10.  A fetch that raises ends the command and the connection with it:
    when a fetch of the batch lets an exception out (one that is not an
    [aiohttp.ClientError]), [exchange_command] raises the exception of such
    a fetch after every GET has gone out and the session has been closed,
    sends nothing and writes no audit line; the handler then removes the
    connection and, unless the exception is a [ConnectionClosed], is left
    with that exception, without reading the frames that follow. *)
Theorem fetch_exception_ends_connection (self : WebSocketChat)
    (ws : websocket) (path : string) (w : world) (message : string)
    (params rest : list string) (N : Z) (r0 : reply) (e0 : exn) :
  let w1 := register ws w in
  let n := Z.to_nat N in
  inbox ws = message :: rest ->
  split message = "exchange"%string :: params ->
  parse_days params = Ok N -> N <= 10 ->
  In r0 (batch E w1 n) -> raises r0 e0 ->
  exists e r m logs,
    In r (batch E w1 n) /\ raises r e /\ is_ClientError e = false
    /\ Forall is_log logs
    /\ exchange_command E self ws params w1 =
       (Raise e,
        advance m (SessionOpen :: map HttpGet (batch_urls E w1 n) ++ logs
                   ++ [SessionClose]) w1)
    /\ (is_ConnectionClosed e = false ->
        handler E self ws path w =
        (Raise e,
         unregister ws
           (advance m (SessionOpen :: map HttpGet (batch_urls E w1 n) ++ logs
                       ++ [SessionClose]) w1))).
Proof.
  intros w1 n Hinbox Hsplit Hp HN Hin Hraise.
  destruct (fetch_last_days_unsettled (fetcher self) N w1 Hin Hraise)
    as (e & r & m & logs & Hr & He & Hc & Hf & Hlogs).
  exists e, r, m, logs.
  assert (Hx : exchange_command E self ws params w1 =
               (Raise e,
                advance m (SessionOpen :: map HttpGet (batch_urls E w1 n)
                           ++ logs ++ [SessionClose]) w1)).
  { rewrite (exchange_command_accepted E self ws params w1 Hp HN).
    fold n in Hf. now rewrite Hf. }
  repeat match goal with |- _ /\ _ => split end; auto.
  intros Hcc. rewrite handler_unfold, Hinbox. fold w1. cbn [receive].
  unfold bind at 1, dispatch. rewrite Hsplit.
  change (String.eqb "exchange" "exchange") with true. cbn iota.
  rewrite Hx. now rewrite Hcc.
Qed.

Lemma diagnostic_of_failure (r : reply) :
  fails r -> exists msg, diagnostic r = [LogError msg].
Proof.
  intros (e & He & Hc). unfold diagnostic. rewrite He, Hc. eexists.
  reflexivity.
Qed.

Lemma batch_log_perm (w : world) (n : nat) :
  Permutation (batch_log E w n) (flat_map diagnostic (batch E w n)).
Proof.
  unfold batch_log.
  rewrite (Permutation_flat_map _ (by_completion_perm _)).
  rewrite <- batch_replies.
  generalize (batch_pendings E w n), 0%nat.
  intros ps. induction ps as [|p rest IH]; intros i; cbn; [reflexivity|].
  apply Permutation_app_head. apply IH.
Qed.

(** X11.  When every fetch of the batch settles, the log holds the
    diagnostics of the failed fetches and nothing else, one line for each
    (in the order the replies arrive), between the GETs and the closing of
    the session. *)
Theorem fetch_last_days_logs_each_failure (self : ExchangeRateFetcher)
    (d : Z) (w : world) :
  let n := Z.to_nat d in
  Forall settles (batch E w n) ->
  exists logs,
    fetch_last_days E self (Some d) w =
    (Ok (map value_of (batch E w n)),
     advance (n + n)
       (SessionOpen :: map HttpGet (batch_urls E w n) ++ logs
        ++ [SessionClose]) w)
    /\ Permutation logs (flat_map diagnostic (batch E w n))
    /\ (forall r, In r (batch E w n) -> fails r ->
        exists msg, diagnostic r = [LogError msg] /\ In (LogError msg) logs)
    /\ (forall r j, In r (batch E w n) ->
        read_response (answer_of r) = Ok j -> diagnostic r = []).
Proof.
  intros n Hs. exists (batch_log E w n).
  split; [now apply fetch_last_days_settles|].
  split; [apply batch_log_perm|]. split.
  - intros r Hin Hf. destruct (diagnostic_of_failure Hf) as [msg Hmsg].
    exists msg. split; [exact Hmsg|].
    apply (Permutation_in _ (Permutation_sym (batch_log_perm w n))).
    apply in_flat_map. exists r. split; [exact Hin|]. rewrite Hmsg. now left.
  - intros r j _ Hj. unfold diagnostic. now rewrite Hj.
Qed.

Lemma length_flat_map_singletons {A B : Type} (f : A -> list B)
    (l : list A) :
  Forall (fun a => List.length (f a) = 1%nat) l ->
  List.length (flat_map f l) = List.length l.
Proof.
  induction 1 as [|a rest Ha _ IH]; [reflexivity|].
  cbn [flat_map]. rewrite length_app, Ha, IH. reflexivity.
Qed.

(** X12.  When every fetch of the batch fails with an
    [aiohttp.ClientError], the client is not told: the command logs one
    line per day, sends the empty message and writes its audit line like a
    command that found rates. *)
Theorem exchange_answers_empty_when_all_fail (self : WebSocketChat)
    (ws : websocket) (params : list string) (N : Z) (w : world) :
  let n := Z.to_nat N in
  let sent_at := (ticks w + (n + n))%nat in
  parse_days params = Ok N -> N <= 10 ->
  Forall fails (batch E w n) ->
  send_fault E sent_at (ws_id ws) = None ->
  open_fault E (S sent_at) "exchange.log" = None ->
  exchange_command E self ws params w =
  (Ok tt,
   advance (n + n + 3)
     ((SessionOpen :: map HttpGet (batch_urls E w n) ++ batch_log E w n
       ++ [SessionClose])
      ++ [WsSend (ws_id ws) EmptyString;
          FileAppend "exchange.log"
            (audit_line params (clock E (S (S sent_at))))])
     w)
  /\ List.length (batch_log E w n) = n
  /\ Forall is_log (batch_log E w n).
Proof.
  intros n sent_at Hp HN Hfail Hsend Hopen.
  assert (Hs : Forall settles (batch E w n)).
  { eapply Forall_impl; [|exact Hfail]. intros r Hr.
    exists JNull. now apply fails_value. }
  assert (Hnone : Forall (fun entry => truthy entry = false)
                    (map value_of (batch E w n))).
  { apply Forall_map. eapply Forall_impl; [|exact Hfail]. intros r Hr.
    apply fails_value in Hr. destruct Hr as [_ ->]. reflexivity. }
  assert (Hlogs : Forall (fun r => List.length (diagnostic r) = 1%nat)
                    (batch E w n)).
  { eapply Forall_impl; [|exact Hfail]. intros r Hr.
    destruct (diagnostic_of_failure Hr) as [msg ->]. reflexivity. }
  split; [|split].
  - rewrite (exchange_command_accepted E self ws params w Hp HN).
    rewrite (fetch_last_days_settles E (fetcher self) N w Hs). fold n.
    unfold extract_rates. rewrite (extract_loop_absent _ _ Hnone).
    cbn [advance ticks]. fold sent_at. rewrite Hsend.
    rewrite append_audit_advance. cbn [advance ticks].
    replace (ticks w + (n + n) + 1)%nat with (S sent_at)
      by (unfold sent_at; lia).
    rewrite Hopen. unfold advance. cbn [clients ticks trace].
    f_equal. f_equal.
    + lia.
    + rewrite <- !app_assoc. reflexivity.
  - rewrite (Permutation_length (batch_log_perm w n)).
    rewrite (length_flat_map_singletons _ Hlogs).
    unfold batch. now rewrite length_map, length_seq.
  - apply Forall_forall. intros ev Hev.
    apply (Permutation_in _ (batch_log_perm w n)) in Hev.
    apply in_flat_map in Hev. destruct Hev as (r & Hr & Hev).
    rewrite Forall_forall in Hfail.
    destruct (diagnostic_of_failure (Hfail r Hr)) as [msg Hmsg].
    rewrite Hmsg in Hev. destruct Hev as [<-|[]]. exact I.
Qed.

(** ** main and the script *)

Lemma print_rate_advance (rate : rate_dict) :
  forall w,
    print_rate rate w = (Ok tt, advance 0 (map Print (rate_lines rate)) w).
Proof.
  induction rate as [|[currency value] rest IH]; intros w.
  - cbn. now rewrite advance_nothing.
  - cbn [print_rate]. unfold bind. rewrite emit_advance, IH.
    rewrite advance_advance. reflexivity.
Qed.

Lemma print_rates_advance (rates : list (json * rate_dict)) :
  forall w,
    print_rates rates w =
    (Ok tt, advance 0 (map Print (response_lines rates)) w).
Proof.
  induction rates as [|[date rate] rest IH]; intros w.
  - cbn. now rewrite advance_nothing.
  - cbn [print_rates]. unfold bind. rewrite emit_advance, print_rate_advance.
    rewrite IH, !advance_advance. cbn [response_lines flat_map fst snd].
    cbn [map app]. rewrite map_app. reflexivity.
Qed.

(** X13.  [main] prints, one [print] each and in the same order, exactly
    the lines that [exchange_command] joins into its message for the same
    day count; it sends nothing and writes nothing to the audit log. *)
Theorem main_prints_the_response_lines (d : Z) (wanted : list string)
    (w : world) (rates : list (json * rate_dict)) (ws : websocket)
    (params : list string) :
  let n := Z.to_nat d in
  let self := {| fetcher := {| days := d; currencies := wanted |} |} in
  Forall settles (batch E w n) ->
  extract_rates (fetcher self) (map value_of (batch E w n)) = Ok rates ->
  main E d wanted w =
  (Ok tt,
   advance (n + n)
     ((SessionOpen :: map HttpGet (batch_urls E w n) ++ batch_log E w n
       ++ [SessionClose])
      ++ map Print (response_lines rates)) w)
  /\ (parse_days params = Ok d -> d <= 10 ->
      exists r w',
        exchange_command E self ws params w = (r, w')
        /\ In (WsSend (ws_id ws) (join newline (response_lines rates)))
             (trace w')).
Proof.
  intros n self Hs Hr. split.
  - unfold main, bind at 1.
    change (fetch_last_days E {| days := d; currencies := wanted |} None)
      with (fetch_last_days E (fetcher self) (Some d)).
    rewrite (fetch_last_days_settles E (fetcher self) d w Hs). fold n.
    unfold bind at 1, lift.
    change {| days := d; currencies := wanted |} with (fetcher self).
    rewrite Hr. rewrite print_rates_advance, advance_advance.
    now rewrite Nat.add_0_r.
  - intros Hp HN.
    rewrite (exchange_command_accepted E self ws params w Hp HN).
    rewrite (fetch_last_days_settles E (fetcher self) d w Hs). fold n.
    rewrite Hr.
    unfold response_text.
    destruct (send_fault E _ (ws_id ws)) as [e|].
    + eexists _, _. split; [reflexivity|]. cbn [advance trace].
      rewrite !in_app_iff. cbn [In]. intuition.
    + rewrite append_audit_advance.
      destruct (open_fault E _ "exchange.log") as [e|];
        eexists _, _; (split; [reflexivity|]); cbn [advance trace];
        rewrite !in_app_iff; cbn [In]; intuition.
Qed.

End Further.

(** ** The script *)

Section ScriptProperties.
Context {NUM : PyNumber} {TXT : PyText}.
Variable E : env.
Variable server : Type.
Variable serve : (websocket -> string -> M unit) -> string -> Z -> M server.
Variable wait_closed : server -> M unit.

(** X14.  The script serves only after [main] has returned.  With a day
    count above 10 it prints the error text and does nothing else.  With a
    day count of at most 10, when a fetch of the first batch lets an
    exception out, the script is left with the exception of such a fetch
    once the session is closed: nothing is printed and the server is never
    started, whatever [websockets.serve] would have done. *)
Theorem script_serves_after_main (d : Z) (wanted : list string) (w : world) :
  let n := Z.to_nat d in
  (10 < d ->
   script E serve wait_closed d wanted w =
   (Ok tt, advance 0 [Print "Error: Maximum number of days is 10"] w))
  /\ (d <= 10 ->
      forall r0 e0,
        In r0 (batch E w n) -> raises r0 e0 ->
        exists e r m logs,
          In r (batch E w n) /\ raises r e /\ Forall is_log logs
          /\ script E serve wait_closed d wanted w =
             (Raise e,
              advance m (SessionOpen :: map HttpGet (batch_urls E w n)
                         ++ logs ++ [SessionClose]) w)).
Proof.
  intros n. split.
  - intros Hd. unfold script. apply Z.ltb_lt in Hd. rewrite Hd.
    apply emit_advance.
  - intros Hd r0 e0 Hin Hraise. unfold script.
    apply Z.ltb_ge in Hd. rewrite Hd.
    destruct (fetch_last_days_unsettled E {| days := d; currencies := wanted |}
                d w Hin Hraise)
      as (e & r & m & logs & Hr & He & _ & Hf & Hlogs).
    exists e, r, m, logs. repeat split; auto.
    unfold bind at 1, main, bind at 1.
    change (fetch_last_days E {| days := d; currencies := wanted |} None)
      with (fetch_last_days E {| days := d; currencies := wanted |} (Some d)).
    fold n in Hf. now rewrite Hf.
Qed.

End ScriptProperties.

(** * Evaluations *)

#[local] Existing Instance sample_numbers.
#[local] Existing Instance sample_text.

(** C6: a response with status 200, a JSON content type and a body that is
    not a JSON document is a failed fetch, yet [fetch_exchange_rate] does not
    return [None] for it: the decoding error leaves the function. *)
Lemma malformed_body_leaves_fetch :
  ~ (forall (NUM : PyNumber) (TXT : PyText) (E : env) (s : session)
            (date : datetime) (w : world),
       fetch_failed (answer_of (remote E (ticks w) (API_URL date))) ->
       fst (fetch_exchange_rate E s date w) = Ok JNull).
Proof.
  intros H.
  specialize (H sample_numbers sample_text Sample.garbled ClientSession
                Sample.noon Sample.start).
  assert (Hf : fetch_failed
                 (answer_of (remote Sample.garbled (ticks Sample.start)
                               (API_URL Sample.noon)))).
  { hnf. right. right. reflexivity. }
  specialize (H Hf).
  change (@Raise json json_decode_error = Ok JNull) in H.
  discriminate H.
Qed.


(** C7: from the same state, [exchange] and [exchange 1] do not leave the
    same state behind: the audit lines differ. *)
Lemma exchange_bare_and_one_differ :
  ~ (forall (NUM : PyNumber) (TXT : PyText) (E : env) (self : WebSocketChat)
            (ws : websocket) (w : world),
       exchange_command E self ws [] w =
       exchange_command E self ws ["1"%string] w).
Proof.
  intros H.
  specialize (H sample_numbers sample_text Sample.healthy Sample.chat
                (Sample.peer []) Sample.start).
  apply (f_equal (fun rw => last (trace (snd rw)) SessionOpen)) in H.
  change (FileAppend "exchange.log"
            (audit_line [] Sample.noon) =
          FileAppend "exchange.log"
            (audit_line ["1"%string] Sample.noon)) in H.
  inversion H.
Qed.

(** ** The theorems at sample inputs *)

(** [exchange 11] on a healthy connection: the error text and nothing else. *)
Lemma exchange_rejects_over_ten_witness :
  py_int "11" = Ok 11 /\ 10 < 11 /\
  exchange_command Sample.healthy Sample.chat (Sample.peer [])
    ["11"%string] Sample.start =
  (Ok tt,
   {| clients := []; ticks := 1;
      trace := [WsSend 7 "Error: Maximum number of days is 10"] |}).
Proof.
  split; [reflexivity|]. split; [reflexivity|].
  exact (@exchange_rejects_over_ten sample_numbers sample_text Sample.healthy
           Sample.chat (Sample.peer []) "11" [] 11 Sample.start
           eq_refl eq_refl).
Defined.

(** Three days asked, the GET for 31 May refused: the other two dates come
    back. *)
Lemma partial_failure_is_tolerated_witness :
  Forall (fun r => fails r \/ exists j, succeeds r j)
    (batch Sample.flaky Sample.start 3)
  /\ exists data w' rates,
       fetch_last_days Sample.flaky Sample.usd_eur (Some 3) Sample.start =
       (Ok data, w')
       /\ extract_rates Sample.usd_eur data = Ok rates
       /\ forall date,
            In date (map fst rates) <->
            exists r j,
              In r (batch Sample.flaky Sample.start 3) /\ succeeds r j
              /\ getitem j "date" = Ok date.
Proof.
  assert (H : Forall (fun r => fails r \/ exists j, succeeds r j)
                (batch Sample.flaky Sample.start 3)).
  { unfold batch. cbn [seq map].
    apply Forall_cons; [right; eexists; split; reflexivity|].
    apply Forall_cons; [left; eexists; split; reflexivity|].
    apply Forall_cons; [right; eexists; split; reflexivity|].
    apply Forall_nil. }
  split; [exact H|].
  exact (@partial_failure_is_tolerated sample_numbers sample_text Sample.flaky
           Sample.usd_eur (Some 3) Sample.start H).
Defined.

(** One failed fetch and the record of 1 June. *)
Lemma extract_rates_keeps_requested_only_witness :
  Forall (fun entry => is_entry entry = true) [JNull; Sample.june1]
  /\ exists rates, extract_rates Sample.usd_eur [JNull; Sample.june1] = Ok rates.
Proof.
  assert (H : Forall (fun entry => is_entry entry = true)
                [JNull; Sample.june1]).
  { apply Forall_cons; [reflexivity|].
    apply Forall_cons; [reflexivity|]. apply Forall_nil. }
  split; [exact H|].
  exact (proj2 (proj2 (proj2 (proj2
           (@extract_rates_keeps_requested_only sample_numbers
              Sample.usd_eur [JNull; Sample.june1])))) H).
Defined.

(** Two days asked: two GETs. *)
Lemma fetch_last_days_fans_out_witness :
  1 <= 2 <= 10
  /\ Z.of_nat (List.length (batch_urls Sample.healthy Sample.start 2)) = 2.
Proof.
  assert (H : 1 <= 2 <= 10) by (split; discriminate).
  split; [exact H|].
  exact (proj1 (proj2
           (@fetch_last_days_fans_out sample_numbers sample_text
              Sample.healthy Sample.usd_eur 2 Sample.start H))).
Defined.


(** A body that does not decode: the decoding error leaves the fetch. *)
Lemma fetch_exchange_rate_absorbs_client_errors_witness :
  fetch_exchange_rate Sample.garbled ClientSession Sample.noon Sample.start =
  (Raise json_decode_error,
   advance 1 [HttpGet (API_URL Sample.noon)] Sample.start).
Proof.
  exact (proj1 (proj2 (proj2
           (@fetch_exchange_rate_absorbs_client_errors sample_numbers
              sample_text Sample.garbled ClientSession Sample.noon
              Sample.start)))
           json_decode_error eq_refl eq_refl).
Defined.

(** [exchange] and [exchange 1] on a healthy connection. *)
Lemma exchange_default_is_one_day_witness :
  exists r n evs (audit : list string -> list event),
    exchange_command Sample.healthy Sample.chat (Sample.peer []) []
      Sample.start =
    (r, advance n (evs ++ audit []) Sample.start)
    /\ exchange_command Sample.healthy Sample.chat (Sample.peer [])
         ["1"%string] Sample.start =
       (r, advance n (evs ++ audit ["1"%string]) Sample.start)
    /\ Forall not_audit evs
    /\ ((forall params, audit params = [])
        \/ exists at_time,
             forall params,
               audit params =
               [FileAppend "exchange.log" (audit_line params at_time)]).
Proof.
  exact (proj2 (proj2
           (@exchange_default_is_one_day sample_numbers sample_text
              Sample.healthy Sample.chat (Sample.peer []) Sample.start))).
Defined.

(** [exchange 2] on a healthy connection, in full. *)
Lemma exchange_sends_rates_then_audits_witness :
  parse_days ["2"%string] = Ok 2 /\ 2 <= 10
  /\ Forall settles (batch Sample.healthy Sample.start 2)
  /\ send_fault Sample.healthy 4 7 = None
  /\ open_fault Sample.healthy 5 "exchange.log" = None
  /\ exchange_command Sample.healthy Sample.chat (Sample.peer [])
       ["2"%string] Sample.start =
     (Ok tt,
      {| clients := []; ticks := 7;
         trace :=
           [SessionOpen;
            HttpGet (API_URL_prefix ++ "01.06.2024");
            HttpGet (API_URL_prefix ++ "31.05.2024");
            SessionClose;
            WsSend 7
              (join newline
                 ["Rates on 01.06.2024:"; "USD: 39.5"; "EUR: 42.1";
                  "Rates on 31.05.2024:"; "USD: 39.5"; "EUR: 42.1"]%string);
            FileAppend "exchange.log"
              ("Command 'exchange' executed with params ['2'] at "
               ++ "2024-06-01 12:00:00" ++ newline)] |}).
Proof.
  assert (Hs : Forall settles (batch Sample.healthy Sample.start 2)).
  { unfold batch. cbn [seq map].
    apply Forall_cons; [eexists; reflexivity|].
    apply Forall_cons; [eexists; reflexivity|]. apply Forall_nil. }
  assert (Hle : 2 <= 10) by discriminate.
  split; [reflexivity|]. split; [exact Hle|]. split; [exact Hs|].
  split; [reflexivity|]. split; [reflexivity|].
  exact (@exchange_sends_rates_then_audits sample_numbers sample_text
           Sample.healthy Sample.chat (Sample.peer []) ["2"%string] 2
           Sample.start
           [(JStr "01.06.2024",
             [(JStr "USD", JNum 395); (JStr "EUR", JNum 421)]);
            (JStr "31.05.2024",
             [(JStr "USD", JNum 395); (JStr "EUR", JNum 421)])]
           eq_refl Hle Hs eq_refl eq_refl eq_refl).
Defined.


(** A line of blanks followed by a command: the handler is left with the
    unpacking error and the command is never read. *)
Lemma handler_raises_on_bad_line_witness :
  inbox (Sample.peer ["   "; "exchange"]%string) = ["   "; "exchange"]%string
  /\ split "   " = []
  /\ handler Sample.healthy Sample.chat
       (Sample.peer ["   "; "exchange"]%string) "/" Sample.start =
     (Raise unpack_error, Sample.start).
Proof.
  split; [reflexivity|]. split; [reflexivity|].
  exact (proj1 (proj1
           (@handler_raises_on_bad_line sample_numbers sample_text
              Sample.healthy Sample.chat
              (Sample.peer ["   "; "exchange"]%string) "/" Sample.start
              "   " ["exchange"%string] eq_refl) eq_refl)).
Defined.

(** ** The further properties at sample inputs *)

(** The record of 1 June fetched twice. *)
Lemma extract_rates_keys_are_distinct_witness :
  extract_rates Sample.usd_eur [Sample.june1; Sample.june1] =
  Ok [(JStr "01.06.2024", [(JStr "USD", JNum 395); (JStr "EUR", JNum 421)])]
  /\ distinct_keys
       [(JStr "01.06.2024",
         [(JStr "USD", JNum 395); (JStr "EUR", JNum 421)])].
Proof.
  split; [reflexivity|].
  exact (proj1 (@extract_rates_keys_are_distinct sample_numbers
                  Sample.usd_eur [Sample.june1; Sample.june1] _ eq_refl)).
Defined.

(** A failed fetch, the record of 1 June, then the record of 31 May. *)
Lemma extract_rates_last_record_wins_witness :
  exists s items d rates,
    date_of Sample.june1 = Some s
    /\ getitem Sample.june1 "exchangeRate" = Ok (JArr items)
    /\ comprehension (currencies Sample.usd_eur) items [] = Ok d
    /\ extract_rates Sample.usd_eur
         ([JNull] ++ Sample.june1 :: [Sample.record_of "31.05.2024"]) =
       Ok rates
    /\ lookup_key (JStr s) rates = Some d.
Proof.
  apply (@extract_rates_last_record_wins sample_numbers Sample.usd_eur
           [JNull] [Sample.record_of "31.05.2024"] Sample.june1).
  - apply Forall_cons; [reflexivity | apply Forall_nil].
  - reflexivity.
  - apply Forall_cons; [reflexivity | apply Forall_nil].
  - apply Forall_cons; [|apply Forall_nil]. intros H. discriminate H.
Defined.

(** The scenario of 1 June 2024: USD and EUR kept, GBP left out. *)
Lemma extract_rates_filters_in_order_witness :
  extract_rates Sample.usd_eur [Sample.june1] =
  Ok [(JStr "01.06.2024", [(JStr "USD", JNum 395); (JStr "EUR", JNum 421)])].
Proof.
  apply (@extract_rates_filters_in_order sample_numbers Sample.usd_eur
           "01.06.2024" [Sample.usd; Sample.eur; Sample.gbp] Cases.quotes
           Cases.june1_members eq_refl eq_refl eq_refl).
  repeat (apply NoDup_cons;
          [cbn; intros H;
           repeat (destruct H as [H|H]; [discriminate H|]); exact H|]).
  apply NoDup_nil.
Defined.

(** AUD is requested and the bank gives no sale rate for it. *)
Lemma extract_rates_requires_sale_rate_witness :
  extract_rates Cases.usd_aud ([JNull] ++ JObj Cases.with_aud :: []) =
  Raise (key_error "saleRate").
Proof.
  apply (@extract_rates_requires_sale_rate sample_numbers Cases.usd_aud
           [JNull] [] Cases.with_aud Cases.aud (JStr "01.06.2024")
           [Sample.usd] [Sample.eur] "AUD").
  - apply Forall_cons; [reflexivity | apply Forall_nil].
  - reflexivity.
  - reflexivity.
  - reflexivity.
  - reflexivity.
  - right. left. reflexivity.
  - reflexivity.
Defined.

(** The same record when only USD and EUR are requested. *)
Lemma extract_rates_reads_requested_only_witness :
  exists rates, extract_rates Sample.usd_eur [JObj Cases.with_aud] = Ok rates.
Proof.
  apply (@extract_rates_reads_requested_only sample_numbers Sample.usd_eur
           [JObj Cases.with_aud]).
  apply Forall_cons; [reflexivity | apply Forall_nil].
Defined.

(** An answer that holds an error message and no date. *)
Lemma extract_rates_requires_date_and_rates_witness :
  extract_rates Sample.usd_eur
    ([Sample.june1] ++ JObj [("error"%string, JStr "no data")] :: []) =
  Raise (key_error "date").
Proof.
  assert (Hb : Forall (fun e => is_entry e = true) [Sample.june1]).
  { apply Forall_cons; [reflexivity | apply Forall_nil]. }
  exact (proj1 (@extract_rates_requires_date_and_rates sample_numbers
                  Sample.usd_eur [Sample.june1] []
                  ("error"%string, JStr "no data") [] Hb) eq_refl).
Defined.

(** A greeting before the command. *)
Lemma handler_passes_over_other_commands_witness :
  handler Sample.healthy Sample.chat
    (Sample.peer ["hello there"; "exchange 11"]%string) "/" Sample.start =
  handler Sample.healthy Sample.chat (Sample.peer ["exchange 11"%string])
    "/" Sample.start.
Proof.
  exact (proj1 (@handler_passes_over_other_commands sample_numbers
                  sample_text Sample.healthy Sample.chat
                  (Sample.peer ["hello there"; "exchange 11"]%string) "/"
                  Sample.start)).
Defined.

(** [exchange 3] and [exchange +3 now]. *)
Lemma exchange_depends_on_day_count_witness :
  parse_days ["3"%string] = Ok 3
  /\ parse_days ["+3"; "now"]%string = Ok 3
  /\ exists r n evs (audit : list string -> list event),
       exchange_command Sample.healthy Sample.chat (Sample.peer [])
         ["3"%string] Sample.start =
       (r, advance n (evs ++ audit ["3"%string]) Sample.start)
       /\ exchange_command Sample.healthy Sample.chat (Sample.peer [])
            ["+3"; "now"]%string Sample.start =
          (r, advance n (evs ++ audit ["+3"; "now"]%string) Sample.start)
       /\ Forall not_audit evs
       /\ ((forall params, audit params = [])
           \/ exists at_time,
                forall params,
                  audit params =
                  [FileAppend "exchange.log" (audit_line params at_time)]).
Proof.
  split; [reflexivity|]. split; [reflexivity|].
  exact (@exchange_depends_on_day_count sample_numbers sample_text
           Sample.healthy Sample.chat (Sample.peer []) ["3"%string]
           ["+3"; "now"]%string 3 Sample.start eq_refl eq_refl).
Defined.

(** The peer leaves while its rates are fetched. *)
Lemma handler_survives_lost_peer_witness :
  Forall settles (batch Cases.lossy Sample.start 1)
  /\ is_ConnectionClosed Cases.closed = true
  /\ fst (handler Cases.lossy Sample.chat
            (Sample.peer ["exchange"; "exchange 2"]%string) "/"
            Sample.start) = Ok tt.
Proof.
  assert (Hs : Forall settles (batch Cases.lossy Sample.start 1)).
  { unfold batch. cbn [seq map].
    apply Forall_cons; [eexists; reflexivity | apply Forall_nil]. }
  split; [exact Hs|]. split; [reflexivity|].
  exact (f_equal fst
           (@handler_survives_lost_peer sample_numbers sample_text
              Cases.lossy Sample.chat
              (Sample.peer ["exchange"; "exchange 2"]%string) "/"
              Sample.start "exchange" [] ["exchange 2"%string] 1
              [(JStr "01.06.2024",
                [(JStr "USD", JNum 395); (JStr "EUR", JNum 421)])]
              Cases.closed eq_refl eq_refl eq_refl
              (fun H => match H in (_ = c) return
                          match c with Gt => False | _ => True end
                        with eq_refl => I end)
              Hs eq_refl eq_refl eq_refl)).
Defined.

(** A body that does not decode. *)
Lemma fetch_exception_ends_connection_witness :
  In Cases.garbled_reply (batch Sample.garbled Sample.start 1)
  /\ raises Cases.garbled_reply json_decode_error
  /\ exists e,
       is_ClientError e = false
       /\ fst (handler Sample.garbled Sample.chat
                 (Sample.peer ["exchange"%string]) "/" Sample.start) =
          (if is_ConnectionClosed e then Ok tt else Raise e).
Proof.
  assert (Hin : In Cases.garbled_reply (batch Sample.garbled Sample.start 1))
    by (left; reflexivity).
  assert (Hr : raises Cases.garbled_reply json_decode_error) by reflexivity.
  assert (Hle : 1 <= 10) by (intros H; discriminate H).
  split; [exact Hin|]. split; [exact Hr|].
  destruct (@fetch_exception_ends_connection sample_numbers sample_text
              Sample.garbled Sample.chat (Sample.peer ["exchange"%string])
              "/" Sample.start "exchange" [] [] 1 Cases.garbled_reply
              json_decode_error eq_refl eq_refl eq_refl Hle Hin Hr)
    as (e & r & m & logs & Hr' & He & Hc & Hlogs & Hx & Hh).
  exists e. split; [exact Hc|].
  destruct r as [lat a]. destruct Hr' as [Heq|[]].
  injection Heq as _ Ha. subst a.
  assert (Hej : e = json_decode_error).
  { unfold raises in He. cbn in He. now inversion He. }
  subst e. cbn [is_ConnectionClosed json_decode_error exn_class_of].
  exact (f_equal fst (Hh eq_refl)).
Defined.

(** Three days asked, the GET for 31 May refused. *)
Lemma fetch_last_days_logs_each_failure_witness :
  Forall settles (batch Sample.flaky Sample.start 3)
  /\ exists logs,
       fetch_last_days Sample.flaky Sample.usd_eur (Some 3) Sample.start =
       (Ok (map value_of (batch Sample.flaky Sample.start 3)),
        advance (3 + 3)
          (SessionOpen :: map HttpGet (batch_urls Sample.flaky Sample.start 3)
           ++ logs ++ [SessionClose]) Sample.start)
       /\ Permutation logs
            (flat_map diagnostic (batch Sample.flaky Sample.start 3)).
Proof.
  assert (Hs : Forall settles (batch Sample.flaky Sample.start 3)).
  { unfold batch. cbn [seq map].
    repeat (apply Forall_cons; [eexists; reflexivity|]). apply Forall_nil. }
  split; [exact Hs|].
  destruct (@fetch_last_days_logs_each_failure sample_numbers sample_text
              Sample.flaky Sample.usd_eur 3 Sample.start Hs)
    as (logs & Hf & Hp & _).
  exists logs. split; [exact Hf | exact Hp].
Defined.

(** The remote API is down for two days asked. *)
Lemma exchange_answers_empty_when_all_fail_witness :
  Forall fails (batch Cases.down Sample.start 2)
  /\ exchange_command Cases.down Sample.chat (Sample.peer []) ["2"%string]
       Sample.start =
     (Ok tt,
      {| clients := []; ticks := 7;
         trace :=
           [SessionOpen;
            HttpGet (API_URL_prefix ++ "01.06.2024");
            HttpGet (API_URL_prefix ++ "31.05.2024");
            LogError "Request failed: Cannot connect to host";
            LogError "Request failed: Cannot connect to host";
            SessionClose;
            WsSend 7 EmptyString;
            FileAppend "exchange.log"
              ("Command 'exchange' executed with params ['2'] at "
               ++ "2024-06-01 12:00:00" ++ newline)] |}).
Proof.
  assert (Hf : Forall fails (batch Cases.down Sample.start 2)).
  { unfold batch. cbn [seq map].
    repeat (apply Forall_cons; [eexists; split; reflexivity|]).
    apply Forall_nil. }
  assert (Hle : 2 <= 10) by (intros H; discriminate H).
  split; [exact Hf|].
  exact (proj1 (@exchange_answers_empty_when_all_fail sample_numbers
                  sample_text Cases.down Sample.chat (Sample.peer [])
                  ["2"%string] 2 Sample.start eq_refl Hle Hf eq_refl
                  eq_refl)).
Defined.

(** [main] for one day. *)
Lemma main_prints_the_response_lines_witness :
  Forall settles (batch Sample.healthy Sample.start 1)
  /\ main Sample.healthy 1 ["USD"; "EUR"]%string Sample.start =
     (Ok tt,
      {| clients := []; ticks := 2;
         trace :=
           [SessionOpen;
            HttpGet (API_URL_prefix ++ "01.06.2024");
            SessionClose;
            Print "Rates on 01.06.2024:";
            Print "USD: 39.5";
            Print "EUR: 42.1"] |}).
Proof.
  assert (Hs : Forall settles (batch Sample.healthy Sample.start 1)).
  { unfold batch. cbn [seq map].
    apply Forall_cons; [eexists; reflexivity | apply Forall_nil]. }
  split; [exact Hs|].
  exact (proj1 (@main_prints_the_response_lines sample_numbers sample_text
                  Sample.healthy 1 ["USD"; "EUR"]%string Sample.start
                  [(JStr "01.06.2024",
                    [(JStr "USD", JNum 395); (JStr "EUR", JNum 421)])]
                  (Sample.peer []) [] Hs eq_refl)).
Defined.

(** [--days 11]. *)
Lemma script_serves_after_main_witness :
  10 < 11
  /\ script Sample.healthy Cases.no_serve Cases.no_wait 11
       ["USD"; "EUR"]%string Sample.start =
     (Ok tt,
      {| clients := []; ticks := 0;
         trace := [Print "Error: Maximum number of days is 10"] |}).
Proof.
  split; [reflexivity|].
  exact (proj1 (@script_serves_after_main sample_numbers sample_text
                  Sample.healthy unit Cases.no_serve Cases.no_wait 11
                  ["USD"; "EUR"]%string Sample.start) eq_refl).
Defined.
